(** * ClosedCaption: the presentation core of [main.py]

    A shallow embedding of the caption window of [src/main.py]: the rolling
    caption history, the colour fade table, the dock layout and the
    transcriber's start/stop flags, together with the Python primitives
    they rest on ([int(s, 16)], string slices, binary64 arithmetic and the
    [02x] format).

    Conventions.  A Python [str] is a Rocq [string]; its characters are the
    code points below 256.  A Python [int] is a [Z].  A Python [float] is a
    binary64 number of the Standard Library's [SpecFloat] (precision 53,
    round to nearest even).  A call that may raise returns an [outcome];
    methods of an object with mutable attributes take the object and return
    it updated. *)

From Stdlib Require Import ZArith List Bool String Ascii Lia QArith Qabs.
From Stdlib Require Import DecimalString HexadecimalString.
From Stdlib Require Import Floats.SpecFloat.
Import ListNotations.

Open Scope string_scope.
Open Scope Z_scope.

(** ** Configuration and constants (main.py, lines 17-23) *)

Definition MODEL_PATH : string := "model".
Definition SAMPLE_RATE : Z := 16000.
Definition BLOCK_SIZE : Z := 8000.
Definition MAX_HISTORY : Z := 10.

(** ** Exceptions *)

Inductive exn : Type :=
| ValueError
| IndexError
| RuntimeError
| OverflowError.

Inductive outcome (A : Type) : Type :=
| Returns (a : A)
| Raises (e : exn).

Arguments Returns {A} a.
Arguments Raises {A} e.

(** ** Python strings *)

Module PyStr.

(** [s[i:j]] for [0 <= i <= j]: at most [j - i] characters from index [i];
    a slice that runs past the end is cut short, never an error. *)
Definition slice (s : string) (i j : nat) : string := substring i (j - i) s.

(** [s.startswith(p)] *)
Definition startswith (s p : string) : bool := prefix p s.

(** [[x] * n] *)
Definition list_mul {A : Type} (x : A) (n : Z) : list A := repeat x (Z.to_nat n).

(** [range(n)] *)
Definition range (n : Z) : list Z := map Z.of_nat (seq 0 (Z.to_nat n)).

(** The white space [int] strips from a [str], for the code points below
    256: the ASCII characters 9 to 13 and 32, and the two other white space
    characters of that range, U+0085 and U+00A0.  The separators 28 to 31
    are white space for [str.isspace] but not for [int]. *)
Definition isspace (c : ascii) : bool :=
  let n := N_of_ascii c in
  (((9 <=? n) && (n <=? 13)) || (n =? 32) || (n =? 133) || (n =? 160))%N.

(** The value of a character as a digit, for the bases up to 16. *)
Definition digit_value (c : ascii) : option Z :=
  let n := Z.of_N (N_of_ascii c) in
  if (48 <=? n) && (n <=? 57) then Some (n - 48)
  else if (97 <=? n) && (n <=? 102) then Some (n - 87)
  else if (65 <=? n) && (n <=? 70) then Some (n - 55)
  else None.

Definition is_hex_digit (c : ascii) : bool :=
  match digit_value c with Some _ => true | None => false end.

Fixpoint lstrip (s : string) : string :=
  match s with
  | String c s' => if isspace c then lstrip s' else s
  | EmptyString => s
  end.

Fixpoint all_space (s : string) : bool :=
  match s with
  | String c s' => isspace c && all_space s'
  | EmptyString => true
  end.

(** The digit loop of [int(s, 16)]: hexadecimal digits, with single
    underscores between them.  It stops at the first other character and
    hands back what is left; a doubled or a trailing underscore is an
    error. *)
Fixpoint scan_digits (prev_underscore : bool) (acc : Z) (s : string)
  : option (Z * string) :=
  match s with
  | EmptyString => if prev_underscore then None else Some (acc, s)
  | String c s' =>
      if Ascii.eqb c "_" then
        if prev_underscore then None else scan_digits true acc s'
      else
        match digit_value c with
        | Some d => scan_digits false (16 * acc + d) s'
        | None => if prev_underscore then None else Some (acc, s)
        end
  end.

Definition skip_prefix_0x (s : string) : string :=
  match s with
  | String "0" (String x s') =>
      if Ascii.eqb x "x" || Ascii.eqb x "X" then
        match s' with
        | String "_" s'' => s''
        | _ => s'
        end
      else s
  | _ => s
  end.

(** [int(s, 16)]: leading white space, an optional sign, an optional [0x]
    prefix, at least one digit, trailing white space.  [None] is
    [ValueError]. *)
Definition int16 (s : string) : option Z :=
  let s1 := lstrip s in
  let '(negative, s2) :=
    match s1 with
    | String "+" r => (false, r)
    | String "-" r => (true, r)
    | _ => (false, s1)
    end in
  let s3 := skip_prefix_0x s2 in
  match s3 with
  | String c _ =>
      if is_hex_digit c then
        match scan_digits false 0 s3 with
        | Some (v, rest) =>
            if all_space rest then Some (if negative then - v else v)
            else None
        | None => None
        end
      else None
  | EmptyString => None
  end.

(** [f"{n}"] for an int: decimal, with a minus sign when negative. *)
Definition format_d (n : Z) : string :=
  DecimalString.NilZero.string_of_int (Z.to_int n).

Definition hex_digits (n : Z) : string :=
  HexadecimalString.NilZero.string_of_uint (N.to_hex_uint (Z.to_N n)).

(** [f"{n:02x}"]: lower-case hexadecimal, zero-filled after the sign to a
    total width of two. *)
Definition format_02x (n : Z) : string :=
  if n <? 0 then
    "-" ++ hex_digits (- n)
  else
    let d := hex_digits n in
    if (String.length d <? 2)%nat then "0" ++ d else d.

End PyStr.

(** ** Python floats *)

Module PyFloat.

Definition prec : Z := 53.
Definition emax : Z := 1024.

Definition t : Type := spec_float.

(** [float(n)] for an int, as the mixed operators apply it to their int
    operand.  It is exact below 2^53, which covers every int this program
    converts. *)
Definition of_int (n : Z) : t := binary_normalize prec emax n 0 false.

Definition mul : t -> t -> t := SFmul prec emax.
Definition div : t -> t -> t := SFdiv prec emax.
Definition sub : t -> t -> t := SFsub prec emax.
Definition ltb : t -> t -> bool := SFltb.
Definition leb : t -> t -> bool := SFleb.
Definition eqb : t -> t -> bool := SFeqb.

(** A decimal literal [num/den], read as the nearest binary64 number. *)
Definition literal (num den : Z) : t := div (of_int num) (of_int den).

(** [max(a, b)]: the first argument unless the second is greater. *)
Definition max (a b : t) : t := if ltb a b then b else a.

(** [int(x)]: truncation towards zero; an infinity raises [OverflowError]
    and a NaN raises [ValueError]. *)
Definition to_int (x : t) : outcome Z :=
  match x with
  | S754_zero _ => Returns 0
  | S754_finite s m e =>
      let a := match e with
               | Z0 => Zpos m
               | Zpos p => Zpos m * 2 ^ Zpos p
               | Zneg p => Zpos m / 2 ^ Zpos p
               end in
      Returns (if s then - a else a)
  | S754_infinity _ => Raises OverflowError
  | S754_nan => Raises ValueError
  end.

(** The rational number a finite float stands for. *)
Definition to_Q (x : t) : Q :=
  match x with
  | S754_finite s m e =>
      let q := match e with
               | Z0 => inject_Z (Zpos m)
               | Zpos p => inject_Z (Zpos m * 2 ^ Zpos p)
               | Zneg p => Qmake (Zpos m) (2 ^ p)%positive
               end in
      if s then Qopp q else q
  | _ => 0%Q
  end.

End PyFloat.

(** ** The toolkit objects the window drives

    Only what [main.py] sets or reads: a label's [text], [font], [fg] and
    [wraplength] options, and the root window's fullscreen attribute, its
    requested geometry and the three sizes it reports.  The sizes are the
    toolkit's answers at the time of a call; no call of the program assigns
    them, and the toolkit may report another window width later (after
    drawing, after a resize).

    The toolkit checks the values it is given and raises its own error for
    a colour it does not know.  The model has no such error: [config] is a
    plain update.  The properties that depend on a colour being accepted
    are stated for RGB hex triples, which the toolkit accepts. *)

Module Tk.

Record Label : Type := mkLabel {
  text : string;
  font : option (string * Z);
  fg : option string;
  wraplength : option Z
}.

(** [tk.Label(frame, text="", bg='black', ...)] *)
Definition new_label : Label := mkLabel "" None None None.

(** [lbl.config(text=t)] *)
Definition config_text (t : string) (l : Label) : Label :=
  mkLabel t (font l) (fg l) (wraplength l).

(** [lbl.config(font=f, fg=c)] *)
Definition config_style (f : string * Z) (c : string) (l : Label) : Label :=
  mkLabel (text l) (Some f) (Some c) (wraplength l).

(** [lbl.config(font=f, fg=c, wraplength=w)] *)
Definition config_style_wrap (f : string * Z) (w : Z) (c : string) (l : Label)
  : Label :=
  mkLabel (text l) (Some f) (Some c) (Some w).

Record Geometry : Type := mkGeometry {
  width : Z;
  height : Z;
  x : Z;
  y : Z
}.

(** The geometry string [f"{width}x{height}+{x}+{y}"]. *)
Definition geometry_string (g : Geometry) : string :=
  PyStr.format_d (width g) ++ "x" ++ PyStr.format_d (height g)
  ++ "+" ++ PyStr.format_d (x g) ++ "+" ++ PyStr.format_d (y g).

Record Root : Type := mkRoot {
  winfo_screenwidth : Z;
  winfo_screenheight : Z;
  winfo_width : Z;
  attr_fullscreen : bool;
  geometry : string
}.

(** [root.attributes("-fullscreen", b)] *)
Definition set_fullscreen (b : bool) (r : Root) : Root :=
  mkRoot (winfo_screenwidth r) (winfo_screenheight r) (winfo_width r) b
         (geometry r).

(** [root.geometry(s)] *)
Definition set_geometry (s : string) (r : Root) : Root :=
  mkRoot (winfo_screenwidth r) (winfo_screenheight r) (winfo_width r)
         (attr_fullscreen r) s.

(** The toolkit comes to report another window width. *)
Definition set_winfo_width (w : Z) (r : Root) : Root :=
  mkRoot (winfo_screenwidth r) (winfo_screenheight r) w
         (attr_fullscreen r) (geometry r).

End Tk.

(** ** class AudioTranscriber (main.py, lines 27-114)

    The flags and the thread handle of the transcriber.  The recognition
    loop itself runs on the thread and is not part of this model; what the
    methods ask of the thread is recorded as a list of effects. *)

Module AudioTranscriber.

Record Thread : Type := mkThread {
  daemon : bool;
  started : bool
}.

Inductive effect : Type :=
| ThreadStart (th : Thread)
| ThreadJoin (th : Thread) (timeout : PyFloat.t).

Record t : Type := mk {
  model_path : string;
  running : bool;
  thread : option Thread
}.

(** lines 32-37 *)
Definition __init__ (path : string) : t := mk path false None.

(** lines 102-108 *)
Definition start (self : t) : t * list effect :=
  if running self then (self, [])
  else
    let th := mkThread true false in
    let th' := mkThread (daemon th) true in
    (mk (model_path self) true (Some th'), [ThreadStart th']).

(** [thread.join(timeout)]: a thread that was never started cannot be
    joined. *)
Definition join (th : Thread) (timeout : PyFloat.t)
  : outcome unit * list effect :=
  if started th then (Returns tt, [ThreadJoin th timeout])
  else (Raises RuntimeError, []).

(** lines 110-114 *)
Definition stop (self : t) : outcome unit * t * list effect :=
  let self := mk (model_path self) false (thread self) in
  match thread self with
  | Some th =>
      let '(r, effs) := join th (PyFloat.literal 20 10) in
      (r, self, effs)
  | None => (Returns tt, self, [])
  end.

End AudioTranscriber.

(** ** The settings dictionary

    The five keys that [SettingsDialog._apply] always supplies (lines
    165-171) and that [CaptionWindow.__init__] starts with (lines 187-193). *)

Record Settings : Type := mkSettings {
  font_family : string;
  font_size : Z;
  text_color : string;
  position : string;
  fullscreen : bool
}.

(** An event as the transcriber hands it over: [(text, is_final)]. *)
Record TranscriptionEvent : Type := mkEvent {
  ev_text : string;
  is_final : bool
}.

(** ** AudioTranscriber._recognition_loop (main.py, lines 66-100)

    The loop runs on the worker thread against the audio queue and the
    recogniser.  Here it is a function of what those hand it: whether the
    model loads, whether the input stream opens, and, pass by pass while
    [running] holds, whether the queue timed out or gave a frame and what
    the recogniser made of the frame.  The result is the calls of
    [on_text_callback], in order.  [_download_model] is taken to have found
    the model. *)

Module Recognition.

(** What the recogniser makes of one frame: [AcceptWaveform] true and
    [Result()] parsed, with the value of its ["text"] key if it has one;
    [AcceptWaveform] false and [PartialResult()] parsed, with the value of
    its ["partial"] key; or an exception, with its message. *)
Inductive decoded : Type :=
| Accepted (text : option string)
| Pending (partial : option string)
| Failed (message : string).

(** One pass of the loop: [queue.Empty] after the timeout, or a frame. *)
Inductive tick : Type :=
| Timeout
| Frame (d : decoded).

(** [d.get(key, "")] on the parsed result *)
Definition get_or_empty (field : option string) : string :=
  match field with
  | Some text => text
  | None => ""
  end.

(** [if text:] *)
Definition truthy (text : string) : bool := negb (String.eqb text "").

(** lines 83-100: the passes made while [running] holds; any exception but
    [queue.Empty] leaves the loop through the handler of lines 98-100. *)
Fixpoint listen (ticks : list tick) : list TranscriptionEvent :=
  match ticks with
  | [] => []
  | Timeout :: rest => listen rest
  | Frame (Accepted field) :: rest =>
      let text := get_or_empty field in
      if truthy text then mkEvent text true :: listen rest else listen rest
  | Frame (Pending field) :: rest =>
      let text := get_or_empty field in
      if truthy text then mkEvent text false :: listen rest else listen rest
  | Frame (Failed message) :: _ => [mkEvent ("Audio Error: " ++ message) true]
  end.

Definition _recognition_loop (model_error stream_error : option string)
    (ticks : list tick) : list TranscriptionEvent :=
  match model_error with
  | Some e => [mkEvent ("Error loading model: " ++ e) true]
  | None =>
      match stream_error with
      | Some e => [mkEvent ("Audio Error: " ++ e) true]
      | None => listen ticks
      end
  end.

End Recognition.

(** ** class CaptionWindow (main.py, lines 175-359) *)

Module CaptionWindow.

Record t : Type := mk {
  root : Tk.Root;
  settings : Settings;
  history : list string;
  color_cache : list string;
  history_labels : list Tk.Label;
  partial_label : Tk.Label;
  transcriber : option AudioTranscriber.t
}.

Definition set_root (r : Tk.Root) (self : t) : t :=
  mk r (settings self) (history self) (color_cache self)
     (history_labels self) (partial_label self) (transcriber self).

Definition set_settings (s : Settings) (self : t) : t :=
  mk (root self) s (history self) (color_cache self)
     (history_labels self) (partial_label self) (transcriber self).

Definition set_history (h : list string) (self : t) : t :=
  mk (root self) (settings self) h (color_cache self)
     (history_labels self) (partial_label self) (transcriber self).

Definition set_color_cache (c : list string) (self : t) : t :=
  mk (root self) (settings self) (history self) c
     (history_labels self) (partial_label self) (transcriber self).

Definition set_history_labels (ls : list Tk.Label) (self : t) : t :=
  mk (root self) (settings self) (history self) (color_cache self)
     ls (partial_label self) (transcriber self).

Definition set_partial_label (l : Tk.Label) (self : t) : t :=
  mk (root self) (settings self) (history self) (color_cache self)
     (history_labels self) l (transcriber self).

Definition set_transcriber (a : AudioTranscriber.t) (self : t) : t :=
  mk (root self) (settings self) (history self) (color_cache self)
     (history_labels self) (partial_label self) (Some a).

(** *** A method body: the object in, an outcome and the object out *)

Definition M (A : Type) : Type := t -> outcome A * t.

Definition ret {A : Type} (a : A) : M A := fun self => (Returns a, self).

Definition raise {A : Type} (e : exn) : M A := fun self => (Raises e, self).

Definition bind {A B : Type} (c : M A) (k : A -> M B) : M B :=
  fun self =>
    match c self with
    | (Returns a, self') => k a self'
    | (Raises e, self') => (Raises e, self')
    end.

Definition get : M t := fun self => (Returns self, self).

Definition modify (f : t -> t) : M unit := fun self => (Returns tt, f self).

Definition lift {A : Type} (o : outcome A) : M A := fun self => (o, self).

Notation "x <- c ;; k" := (bind c (fun x => k))
  (at level 61, c at next level, right associativity).
Notation "c ;; k" := (bind c (fun _ => k))
  (at level 61, right associativity).

(** [int(s, 16)] as a step of a method. *)
Definition parse_hex (s : string) : M Z :=
  match PyStr.int16 s with
  | Some v => ret v
  | None => raise ValueError
  end.

(** *** _init_ui (lines 213-243): the pool of labels *)

Definition _init_ui_labels : list Tk.Label :=
  map (fun _ => Tk.new_label) (PyStr.range MAX_HISTORY).

(** *** _update_color_cache (lines 245-274) *)

(** lines 268-269 *)
Definition fade_factor (i : Z) : PyFloat.t :=
  let factor :=
    PyFloat.sub (PyFloat.literal 10 10)
      (PyFloat.div (PyFloat.of_int i)
         (PyFloat.mul (PyFloat.of_int MAX_HISTORY) (PyFloat.literal 15 10))) in
  PyFloat.max (PyFloat.literal 2 10) factor.

(** [int(c * factor)], lines 271-273 *)
Definition scale (c : Z) (factor : PyFloat.t) : outcome Z :=
  PyFloat.to_int (PyFloat.mul (PyFloat.of_int c) factor).

(** The body of the loop of lines 265-274, over the indices still to do. *)
Fixpoint fade_loop (r g b : Z) (indices : list Z) : M unit :=
  match indices with
  | [] => ret tt
  | i :: rest =>
      let factor := fade_factor i in
      nr <- lift (scale r factor) ;;
      ng <- lift (scale g factor) ;;
      nb <- lift (scale b factor) ;;
      modify (fun self =>
        set_color_cache
          (color_cache self
           ++ ["#" ++ PyStr.format_02x nr ++ PyStr.format_02x ng
                   ++ PyStr.format_02x nb])
          self) ;;
      fade_loop r g b rest
  end.

Definition _update_color_cache : M unit :=
  self <- get ;;
  let base_color := text_color (settings self) in
  modify (set_color_cache []) ;;
  if negb (PyStr.startswith base_color "#") then
    modify (set_color_cache (PyStr.list_mul base_color MAX_HISTORY))
  else
    r <- parse_hex (PyStr.slice base_color 1 3) ;;
    g <- parse_hex (PyStr.slice base_color 3 5) ;;
    b <- parse_hex (PyStr.slice base_color 5 7) ;;
    fade_loop r g b (PyStr.range MAX_HISTORY).

(** *** _apply_visual_settings (lines 276-321) *)

(** [for i, lbl in enumerate(labels): lbl.config(..., fg=cache[i], ...)]:
    the labels configured so far, and the [IndexError] of [cache[i]] if
    the cache is shorter than the pool. *)
Fixpoint config_each (upd : string -> Tk.Label -> Tk.Label)
    (cache : list string) (i : nat) (labels : list Tk.Label)
  : list Tk.Label * option exn :=
  match labels with
  | [] => ([], None)
  | lbl :: rest =>
      match nth_error cache i with
      | None => (labels, Some IndexError)
      | Some c =>
          let '(rest', e) := config_each upd cache (S i) rest in
          (upd c lbl :: rest', e)
      end
  end.

Definition config_history_labels (upd : string -> Tk.Label -> Tk.Label)
  : M unit :=
  fun self =>
    let '(labels, e) :=
      config_each upd (color_cache self) 0 (history_labels self) in
    (match e with Some x => Raises x | None => Returns tt end,
     set_history_labels labels self).

(** lines 296-310: the geometry request and the width the text wraps in *)
Definition layout (s : Settings) (r : Tk.Root) : Tk.Root * Z :=
  let is_fs := fullscreen s in
  let r := Tk.set_fullscreen is_fs r in
  let screen_width := Tk.winfo_screenwidth r in
  let window_width := screen_width in
  if negb is_fs then
    let pos := position s in
    let sh := Tk.winfo_screenheight r in
    if String.eqb pos "top" then
      (Tk.set_geometry
         (Tk.geometry_string (Tk.mkGeometry screen_width 250 0 0)) r,
       window_width)
    else if String.eqb pos "bottom" then
      let taskbar_offset := 40 in
      (Tk.set_geometry
         (Tk.geometry_string
            (Tk.mkGeometry screen_width 250 0 (sh - 250 - taskbar_offset))) r,
       window_width)
    else
      let window_width := Tk.winfo_width r in
      let window_width := if window_width <=? 1 then 800 else window_width in
      (r, window_width)
  else (r, window_width).

Definition _apply_visual_settings : M unit :=
  self <- get ;;
  let font_spec := (font_family (settings self), font_size (settings self)) in
  let color := text_color (settings self) in
  modify (fun self =>
    set_partial_label (Tk.config_style font_spec color (partial_label self))
      self) ;;
  config_history_labels (Tk.config_style font_spec) ;;
  self <- get ;;
  let '(root', window_width) := layout (settings self) (root self) in
  modify (set_root root') ;;
  let wrap_len := window_width - 50 in
  modify (fun self =>
    set_partial_label
      (Tk.config_style_wrap font_spec wrap_len color (partial_label self))
      self) ;;
  config_history_labels (Tk.config_style_wrap font_spec wrap_len).

(** *** on_settings_changed (lines 326-329) *)

Definition on_settings_changed (new_settings : Settings) : M unit :=
  modify (set_settings new_settings) ;;
  _update_color_cache ;;
  _apply_visual_settings.

(** *** _process_text_update (lines 335-355) *)

(** lines 347-351 *)
Fixpoint show_history (h : list string) (i : nat) (labels : list Tk.Label)
  : list Tk.Label :=
  match labels with
  | [] => []
  | lbl :: rest =>
      (if (i <? List.length h)%nat
       then Tk.config_text (nth i h "") lbl
       else Tk.config_text "" lbl)
      :: show_history h (S i) rest
  end.

(** lines 341-343: [insert(0, text)], then [pop()] past the bound *)
Definition push (text : string) (h : list string) : list string :=
  let h := text :: h in
  if Z.of_nat (List.length h) >? MAX_HISTORY then removelast h else h.

Definition _process_text_update (text : string) (final : bool) (self : t)
  : t :=
  if final then
    let self := set_history (push text (history self)) self in
    let self :=
      set_history_labels
        (show_history (history self) 0 (history_labels self)) self in
    set_partial_label (Tk.config_text "" (partial_label self)) self
  else
    set_partial_label (Tk.config_text text (partial_label self)) self.

(** on_text_update (lines 331-333) queues the update on the event loop,
    which runs the queued updates one by one in the order they came. *)
Definition process_events (evs : list TranscriptionEvent) (self : t) : t :=
  fold_left
    (fun w ev => _process_text_update (ev_text ev) (is_final ev) w) evs self.

(** *** __init__ (lines 179-211) *)

Definition default_settings : Settings :=
  mkSettings "Helvetica" 24 "#FFFFFF" "floating" false.

Definition __init__ (root : Tk.Root) : outcome unit * t :=
  let self :=
    mk (Tk.set_geometry "800x200" root) default_settings
       (PyStr.list_mul "" MAX_HISTORY) [] _init_ui_labels Tk.new_label None in
  (_update_color_cache ;;
   _apply_visual_settings ;;
   modify (set_transcriber
             (fst (AudioTranscriber.start
                     (AudioTranscriber.__init__ MODEL_PATH))))) self.

(** *** on_close (lines 357-359) *)

Inductive close_effect : Type :=
| Worker (e : AudioTranscriber.effect)
| RootDestroy.

(** [None]: the window has no [transcriber] attribute.  [__init__] sets it
    before it registers [on_close]. *)
Definition on_close (self : t)
  : option (outcome unit * t * list close_effect) :=
  match transcriber self with
  | None => None
  | Some a =>
      let '(r, a', effs) := AudioTranscriber.stop a in
      let self := set_transcriber a' self in
      match r with
      | Returns _ => Some (Returns tt, self, (map Worker effs ++ [RootDestroy])%list)
      | Raises e => Some (Raises e, self, map Worker effs)
      end
  end.

End CaptionWindow.

(** * Vocabulary of the properties *)

Import CaptionWindow.

Open Scope list_scope.

(** The window as [__init__] leaves it. *)
Definition initial_window (root : Tk.Root) : CaptionWindow.t :=
  snd (__init__ root).

(** A run of final events, one per text. *)
Definition finals (texts : list string) : list TranscriptionEvent :=
  map (fun t => mkEvent t true) texts.


(** The texts of the final events of a run, oldest first. *)
Definition final_texts (evs : list TranscriptionEvent) : list string :=
  map ev_text (filter is_final evs).

(** A 1920x1080 screen with the window not yet drawn. *)
Definition screen_1920x1080 : Tk.Root := Tk.mkRoot 1920 1080 1 false "".

(** The fade as the design states it, in exact rational arithmetic: the
    factor [max(0.2, 1 - i/(N*1.5))] with [N = MAX_HISTORY], and a colour
    component scaled by it and cut to an integer. *)
Module FadeSpec.

Definition factor (i : Z) : Q :=
  let f := (1 - inject_Z i / (inject_Z MAX_HISTORY * (15 # 10)))%Q in
  if Qle_bool (2 # 10) f then f else (2 # 10)%Q.

Definition truncate (q : Q) : Z := Z.quot (Qnum q) (Zpos (Qden q)).

Definition scaled (c i : Z) : Z := truncate (inject_Z c * factor i)%Q.

Definition color (r g b i : Z) : string :=
  ("#" ++ PyStr.format_02x (scaled r i) ++ PyStr.format_02x (scaled g i)
       ++ PyStr.format_02x (scaled b i))%string.

Definition table (r g b : Z) : list string :=
  map (color r g b) (PyStr.range MAX_HISTORY).

End FadeSpec.

(** A base colour given as an RGB hex triple: [#] and six hexadecimal
    digits. *)
Definition is_rgb_hex (s : string) : bool :=
  match s with
  | String h (String a (String b (String c (String d (String e
      (String f EmptyString)))))) =>
      Ascii.eqb h "#"
      && PyStr.is_hex_digit a && PyStr.is_hex_digit b
      && PyStr.is_hex_digit c && PyStr.is_hex_digit d
      && PyStr.is_hex_digit e && PyStr.is_hex_digit f
  | _ => false
  end.

(** How many hexadecimal digits a string starts with. *)
Fixpoint leading_hex_digits (s : string) : nat :=
  match s with
  | String c s' =>
      if PyStr.is_hex_digit c then S (leading_hex_digits s') else 0%nat
  | EmptyString => 0%nat
  end.

(** The characters after the first one. *)
Definition after_first (s : string) : string :=
  match s with
  | String _ s' => s'
  | EmptyString => EmptyString
  end.

(** Every character below 256. *)
Definition all_ascii : list ascii := map ascii_of_nat (seq 0 256).

(** Two hexadecimal digits parse to the byte they spell. *)
Definition hex_pair_parses (a b : ascii) : bool :=
  implb (PyStr.is_hex_digit a && PyStr.is_hex_digit b)
    match PyStr.int16 (String a (String b EmptyString)) with
    | Some v => (0 <=? v) && (v <=? 255)
    | None => false
    end.

(** On a byte, the binary64 computation of lines 268-273 gives exactly
    the exact-arithmetic value. *)
Definition scale_agrees (c i : Z) : bool :=
  match scale c (fade_factor i) with
  | Returns v => v =? FadeSpec.scaled c i
  | Raises _ => false
  end.

(** What happens to the window between two callbacks: a queued text update
    is run, the callback of the settings dialog is run, or the toolkit
    comes to report another window width.  An exception raised by a
    callback is reported by the toolkit and the loop goes on with the
    window as the callback left it. *)
Inductive action : Type :=
| TextUpdate (ev : TranscriptionEvent)
| SettingsChanged (s : Settings)
| Resized (width : Z).

Definition perform (w : CaptionWindow.t) (a : action) : CaptionWindow.t :=
  match a with
  | TextUpdate ev => _process_text_update (ev_text ev) (is_final ev) w
  | SettingsChanged s => snd (on_settings_changed s w)
  | Resized width =>
      set_root (Tk.set_winfo_width width (CaptionWindow.root w)) w
  end.

Definition run_actions (acts : list action) (w : CaptionWindow.t)
  : CaptionWindow.t :=
  fold_left perform acts w.

(** Calls made on a transcriber. *)
Inductive call : Type :=
| Start
| Stop.

Definition make_call (a : AudioTranscriber.t) (c : call) : AudioTranscriber.t :=
  match c with
  | Start => fst (AudioTranscriber.start a)
  | Stop => snd (fst (AudioTranscriber.stop a))
  end.

Definition make_calls (cs : list call) (a : AudioTranscriber.t)
  : AudioTranscriber.t :=
  fold_left make_call cs a.

(** The thread handle, if there is one, is of a started thread. *)
Definition thread_is_started (a : AudioTranscriber.t) : Prop :=
  match AudioTranscriber.thread a with
  | Some th => AudioTranscriber.started th = true
  | None => True
  end.

(** A pass on which the recogniser raised. *)
Definition is_failure (t : Recognition.tick) : bool :=
  match t with
  | Recognition.Frame (Recognition.Failed _) => true
  | _ => false
  end.

(** The integers [lo], [lo + 1], ..., [lo + n - 1]. *)
Definition interval (lo n : Z) : list Z := map (fun k => lo + k) (PyStr.range n).

(** Every string of at most two characters. *)
Definition short_strings : list string :=
  EmptyString
  :: map (fun a => String a EmptyString) all_ascii
  ++ flat_map (fun a => map (fun b => String a (String b EmptyString)) all_ascii)
       all_ascii.

(** Whether [_update_color_cache] can use a colour: it does not start with
    [#], or its three two-character slices all parse. *)
Definition color_usable (col : string) : bool :=
  negb (PyStr.startswith col "#")
  || (match PyStr.int16 (PyStr.slice col 1 3) with Some _ => true | None => false end
      && match PyStr.int16 (PyStr.slice col 3 5) with Some _ => true | None => false end
      && match PyStr.int16 (PyStr.slice col 5 7) with Some _ => true | None => false end).

(** What [int(s, 16)] can give on a slice of two characters. *)
Definition short_parse_in_range (s : string) : bool :=
  match PyStr.int16 s with
  | Some v => (-15 <=? v) && (v <=? 255)
  | None => true
  end.

(** The options of a label that the settings decide. *)
Definition label_style (l : Tk.Label)
  : option (string * Z) * option string * option Z :=
  (Tk.font l, Tk.fg l, Tk.wraplength l).

(** The text the partial label shows after a run of events, read off the
    events: the text of the last event if it is a partial one, nothing if
    it is a final one, and what the label showed before if there is no
    event. *)
Definition partial_after (evs : list TranscriptionEvent) (before : string)
  : string :=
  match rev evs with
  | [] => before
  | ev :: _ => if is_final ev then "" else ev_text ev
  end.

(** What holds of every window the event loop can reach. *)
Definition window_ok (w : CaptionWindow.t) : Prop :=
  List.length (history w) = 10%nat
  /\ List.length (history_labels w) = 10%nat
  /\ map Tk.text (history_labels w) = history w
  /\ (List.length (color_cache w) = 10%nat \/ color_cache w = []).

(** A byte prints as two hexadecimal digits that parse back to it. *)
Definition byte_prints_and_parses (v : Z) : bool :=
  match PyStr.format_02x v with
  | String a (String b EmptyString) =>
      PyStr.is_hex_digit a && PyStr.is_hex_digit b
      && match PyStr.int16 (PyStr.format_02x v) with
         | Some v' => v' =? v
         | None => false
         end
  | _ => false
  end.

(** A byte scaled for a slot is a byte again, and itself in slot 0. *)
Definition scaled_stays_byte (c i : Z) : bool :=
  (0 <=? FadeSpec.scaled c i) && (FadeSpec.scaled c i <=? c)
  && (FadeSpec.scaled c 0 =? c).

(** * Properties *)

(** ** The rolling history *)

Section History.

Lemma firstn_repeat {A : Type} (x : A) (n m : nat) :
  firstn n (repeat x m) = repeat x (Nat.min n m).
Proof.
  revert m; induction n as [|n IH]; intros [|m]; simpl; auto.
  now rewrite IH.
Qed.

Lemma firstn_app_cut {A : Type} (a x : list A) (n m : nat) :
  (n <= List.length a + m)%nat ->
  firstn n (a ++ firstn m x) = firstn n (a ++ x).
Proof.
  intros Hn.
  rewrite !firstn_app, firstn_firstn.
  now replace (Nat.min (n - List.length a) m) with (n - List.length a)%nat
    by lia.
Qed.

Lemma push_full (text : string) (h : list string) :
  List.length h = 10%nat -> push text h = text :: removelast h.
Proof.
  intros Hlen. unfold push, MAX_HISTORY.
  replace (Z.of_nat (List.length (text :: h)) >? 10) with true
    by (simpl List.length; rewrite Hlen; reflexivity).
  destruct h; [discriminate|reflexivity].
Qed.

Lemma push_length (text : string) (h : list string) :
  List.length h = 10%nat -> List.length (push text h) = 10%nat.
Proof.
  intros Hlen. rewrite push_full by assumption.
  rewrite removelast_firstn_len, Hlen.
  cbn [List.length Nat.pred].
  rewrite firstn_length_le; [reflexivity | lia].
Qed.

Lemma history_final (text : string) (self : CaptionWindow.t) :
  history (_process_text_update text true self) = push text (history self).
Proof. reflexivity. Qed.

Lemma history_partial (text : string) (self : CaptionWindow.t) :
  history (_process_text_update text false self) = history self.
Proof. reflexivity. Qed.

Lemma history_process_events (evs : list TranscriptionEvent) :
  forall self : CaptionWindow.t,
    List.length (history self) = 10%nat ->
    history (process_events evs self)
    = firstn 10 (rev (final_texts evs) ++ history self).
Proof.
  unfold process_events, final_texts.
  induction evs as [|[text [|]] evs IH]; intros self Hlen;
    cbn [fold_left filter map rev app is_final ev_text].
  - now rewrite firstn_all2 by lia.
  - rewrite IH by (rewrite history_final; now apply push_length).
    rewrite history_final, push_full by assumption.
    rewrite removelast_firstn_len, Hlen. cbn [Nat.pred].
    rewrite <- app_assoc. cbn [app].
    change (text :: firstn 9 (history self))
      with ([text] ++ firstn 9 (history self)).
    change (text :: history self) with ([text] ++ history self).
    rewrite !app_assoc.
    apply firstn_app_cut. rewrite length_app. simpl. lia.
  - rewrite IH by (now rewrite history_partial).
    now rewrite history_partial.
Qed.

Lemma initial_history (root : Tk.Root) :
  history (initial_window root) = repeat "" 10.
Proof. reflexivity. Qed.

Lemma final_texts_finals (texts : list string) :
  final_texts (finals texts) = texts.
Proof.
  unfold final_texts, finals.
  induction texts as [|t texts IH]; simpl; [reflexivity|].
  now rewrite IH.
Qed.

End History.

(** C1, as stated, fails: after one final event the history is not the
    one-element list of that text; nine empty strings follow it. *)
Lemma history_after_one_final_is_not_bare :
  history (process_events (finals ["hello"]) (initial_window screen_1920x1080))
  <> firstn (Nat.min 1 10) (rev ["hello"]).
Proof. vm_compute. discriminate. Qed.

(** C1, amended: from the initial window, after [k] final events the
    history is the last [min k 10] texts, newest first, followed by
    [10 - min k 10] empty strings. *)
Theorem history_after_finals (root : Tk.Root) (texts : list string) :
  let k := List.length texts in
  history (process_events (finals texts) (initial_window root))
  = firstn (Nat.min k 10) (rev texts) ++ repeat "" (10 - Nat.min k 10).
Proof.
  intros k.
  rewrite history_process_events by reflexivity.
  rewrite final_texts_finals, initial_history, firstn_app, firstn_repeat.
  rewrite length_rev. fold k.
  f_equal.
  - destruct (Nat.le_gt_cases k 10) as [Hk|Hk].
    + rewrite !firstn_all2; rewrite ?length_rev; fold k; auto; lia.
    + now replace (Nat.min k 10) with 10%nat by lia.
  - f_equal. lia.
Qed.

(** C2: twelve final events cap0 .. cap11 leave cap11 .. cap2; cap0 and
    cap1 are gone. *)
Theorem history_after_twelve_captions :
  history
    (process_events
       (finals ["cap0"; "cap1"; "cap2"; "cap3"; "cap4"; "cap5"; "cap6";
                "cap7"; "cap8"; "cap9"; "cap10"; "cap11"])
       (initial_window screen_1920x1080))
  = ["cap11"; "cap10"; "cap9"; "cap8"; "cap7"; "cap6"; "cap5"; "cap4";
     "cap3"; "cap2"].
Proof. reflexivity. Qed.

(** C9: the history always holds exactly ten strings.  It starts as ten
    empty strings, every run of events (partial or final) leaves ten, the
    slots no caption has reached yet are empty, and a final event puts its
    text in front and drops the last entry. *)
Theorem history_always_ten (root : Tk.Root) (evs : list TranscriptionEvent) :
  let w := process_events evs (initial_window root) in
  history (initial_window root) = PyStr.list_mul "" MAX_HISTORY
  /\ List.length (history w) = Z.to_nat MAX_HISTORY
  /\ history w = firstn 10 (rev (final_texts evs) ++ repeat "" 10)
  /\ (forall text : string,
        history (_process_text_update text true w)
        = text :: removelast (history w)).
Proof.
  intros w.
  assert (Hw : history w = firstn 10 (rev (final_texts evs) ++ repeat "" 10)).
  { unfold w. now rewrite history_process_events, initial_history. }
  assert (Hlen : List.length (history w) = 10%nat).
  { rewrite Hw, firstn_length_le; [reflexivity|].
    rewrite length_app, repeat_length. lia. }
  repeat split; try assumption.
  intros text. rewrite history_final. now apply push_full.
Qed.

(** ** Partial and final events *)




(** ** Stopping the transcriber *)

(** C8: [stop] on a transcriber that was never started returns normally
    and asks nothing of any thread; [stop] always clears the running flag
    and keeps the thread handle; it joins exactly when there is a thread,
    with a timeout of 2.0 seconds. *)
Theorem stop_without_thread (path : string) (self : AudioTranscriber.t) :
  AudioTranscriber.stop (AudioTranscriber.__init__ path)
  = (Returns tt, AudioTranscriber.__init__ path, [])
  /\ (let '(r, self', effs) := AudioTranscriber.stop self in
      AudioTranscriber.running self' = false
      /\ AudioTranscriber.thread self' = AudioTranscriber.thread self
      /\ match AudioTranscriber.thread self with
         | None => r = Returns tt /\ effs = []
         | Some th =>
             (r, effs) = AudioTranscriber.join th (PyFloat.literal 20 10)
         end)
  /\ (let started := fst (AudioTranscriber.start (AudioTranscriber.__init__ path)) in
      exists th : AudioTranscriber.Thread,
        AudioTranscriber.thread started = Some th
        /\ AudioTranscriber.stop started
           = (Returns tt,
              AudioTranscriber.mk path false (Some th),
              [AudioTranscriber.ThreadJoin th (PyFloat.literal 20 10)]))
  /\ PyFloat.to_Q (PyFloat.literal 20 10) == 2 # 1.
Proof.
  split; [reflexivity|]. split.
  - unfold AudioTranscriber.stop. cbn [AudioTranscriber.thread].
    destruct (AudioTranscriber.thread self) as [th|].
    + destruct (AudioTranscriber.join th (PyFloat.literal 20 10)) as [r effs].
      repeat split; reflexivity.
    + repeat split; reflexivity.
  - split.
    + eexists. split; reflexivity.
    + vm_compute. reflexivity.
Qed.

(** ** The colour fade table *)

Section FadeTable.

Lemma in_all_ascii (c : ascii) : In c all_ascii.
Proof.
  unfold all_ascii. apply in_map_iff.
  exists (nat_of_ascii c). split.
  - apply ascii_nat_embedding.
  - apply in_seq. pose proof (nat_ascii_bounded c). lia.
Qed.

Lemma in_range (n i : Z) : 0 <= i < n -> In i (PyStr.range n).
Proof.
  intros Hi. unfold PyStr.range. apply in_map_iff.
  exists (Z.to_nat i). split; [lia|]. apply in_seq. lia.
Qed.

Lemma range_bounds (n i : Z) : In i (PyStr.range n) -> 0 <= i < n.
Proof.
  unfold PyStr.range. intros Hin. apply in_map_iff in Hin.
  destruct Hin as [k [<- Hk]]. apply in_seq in Hk. lia.
Qed.

Lemma hex_pairs_parse :
  forallb (fun a => forallb (hex_pair_parses a) all_ascii) all_ascii = true.
Proof. vm_compute. reflexivity. Qed.

Lemma int16_hex_pair (a b : ascii) :
  PyStr.is_hex_digit a = true -> PyStr.is_hex_digit b = true ->
  exists v : Z,
    PyStr.int16 (String a (String b EmptyString)) = Some v /\ 0 <= v <= 255.
Proof.
  intros Ha Hb.
  pose proof hex_pairs_parse as H.
  rewrite forallb_forall in H. specialize (H a (in_all_ascii a)).
  rewrite forallb_forall in H. specialize (H b (in_all_ascii b)).
  unfold hex_pair_parses in H. rewrite Ha, Hb in H. simpl in H.
  destruct (PyStr.int16 (String a (String b EmptyString))) as [v|];
    [|discriminate].
  exists v. split; [reflexivity|lia].
Qed.

Lemma scale_agrees_on_bytes :
  forallb (fun c => forallb (scale_agrees c) (PyStr.range MAX_HISTORY))
          (PyStr.range 256) = true.
Proof. vm_compute. reflexivity. Qed.

Lemma scale_exact (c i : Z) :
  0 <= c <= 255 -> In i (PyStr.range MAX_HISTORY) ->
  scale c (fade_factor i) = Returns (FadeSpec.scaled c i).
Proof.
  intros Hc Hi.
  pose proof scale_agrees_on_bytes as H.
  rewrite forallb_forall in H.
  specialize (H c (in_range 256 c ltac:(lia))).
  rewrite forallb_forall in H. specialize (H i Hi).
  unfold scale_agrees in H.
  destruct (scale c (fade_factor i)) as [v|]; [|discriminate].
  apply Z.eqb_eq in H. now subst.
Qed.

Lemma fade_loop_exact (r g b : Z) :
  0 <= r <= 255 -> 0 <= g <= 255 -> 0 <= b <= 255 ->
  forall (indices : list Z) (self : CaptionWindow.t),
    (forall i, In i indices -> In i (PyStr.range MAX_HISTORY)) ->
    fade_loop r g b indices self
    = (Returns tt,
       set_color_cache
         (color_cache self ++ map (FadeSpec.color r g b) indices) self).
Proof.
  intros Hr Hg Hb.
  induction indices as [|i rest IH]; intros self Hin.
  - simpl. rewrite app_nil_r. now destruct self.
  - cbn [fade_loop]. unfold bind, lift, modify.
    rewrite !scale_exact by (auto; apply Hin; now left).
    rewrite IH by (intros j Hj; apply Hin; now right).
    unfold set_color_cache. cbn [color_cache root settings history
      history_labels partial_label transcriber map].
    now rewrite <- app_assoc.
Qed.

(** The hex branch of [_update_color_cache], parse by parse. *)
Lemma update_color_cache_hex (self : CaptionWindow.t) :
  PyStr.startswith (text_color (settings self)) "#" = true ->
  _update_color_cache self
  = match PyStr.int16 (PyStr.slice (text_color (settings self)) 1 3),
          PyStr.int16 (PyStr.slice (text_color (settings self)) 3 5),
          PyStr.int16 (PyStr.slice (text_color (settings self)) 5 7) with
    | Some r, Some g, Some b =>
        fade_loop r g b (PyStr.range MAX_HISTORY) (set_color_cache [] self)
    | _, _, _ => (Raises ValueError, set_color_cache [] self)
    end.
Proof.
  intros Hcol.
  unfold _update_color_cache, bind, get, modify, parse_hex, ret, raise.
  rewrite Hcol. cbn [negb].
  cbn [settings set_color_cache text_color].
  destruct (PyStr.int16 (PyStr.slice (text_color (settings self)) 1 3))
    as [r|]; [|reflexivity].
  destruct (PyStr.int16 (PyStr.slice (text_color (settings self)) 3 5))
    as [g|]; [|reflexivity].
  destruct (PyStr.int16 (PyStr.slice (text_color (settings self)) 5 7))
    as [b|]; reflexivity.
Qed.

(** [#] and six hexadecimal digits, whatever follows them. *)
Lemma update_color_cache_six_digits
    (self : CaptionWindow.t) (a b c d e f : ascii) (rest : string) :
  text_color (settings self)
  = String "#" (String a (String b (String c (String d (String e
      (String f rest)))))) ->
  PyStr.is_hex_digit a = true -> PyStr.is_hex_digit b = true ->
  PyStr.is_hex_digit c = true -> PyStr.is_hex_digit d = true ->
  PyStr.is_hex_digit e = true -> PyStr.is_hex_digit f = true ->
  exists r g bl : Z,
    (0 <= r <= 255 /\ 0 <= g <= 255 /\ 0 <= bl <= 255)
    /\ PyStr.int16 (PyStr.slice (text_color (settings self)) 1 3) = Some r
    /\ PyStr.int16 (PyStr.slice (text_color (settings self)) 3 5) = Some g
    /\ PyStr.int16 (PyStr.slice (text_color (settings self)) 5 7) = Some bl
    /\ _update_color_cache self
       = (Returns tt, set_color_cache (FadeSpec.table r g bl) self).
Proof.
  intros Hcol Ha Hb Hc Hd He Hf.
  destruct (int16_hex_pair a b Ha Hb) as [r [Hr Hr255]].
  destruct (int16_hex_pair c d Hc Hd) as [g [Hg Hg255]].
  destruct (int16_hex_pair e f He Hf) as [bl [Hbl Hbl255]].
  exists r, g, bl.
  assert (H1 : PyStr.slice (text_color (settings self)) 1 3
               = String a (String b EmptyString)) by now rewrite Hcol.
  assert (H2 : PyStr.slice (text_color (settings self)) 3 5
               = String c (String d EmptyString)) by now rewrite Hcol.
  assert (H3 : PyStr.slice (text_color (settings self)) 5 7
               = String e (String f EmptyString))
    by (rewrite Hcol; now destruct rest).
  rewrite update_color_cache_hex by (rewrite Hcol; reflexivity).
  rewrite H1, H2, H3, Hr, Hg, Hbl.
  repeat split; try lia.
  rewrite fade_loop_exact by auto.
  reflexivity.
Qed.

End FadeTable.

Section FadeTableShape.

Lemma substring_short (s : string) :
  forall n m : nat, (String.length s <= n)%nat -> substring n m s = EmptyString.
Proof.
  induction s as [|c s IH]; intros [|n] m Hn; simpl in *; try lia.
  - now destruct m.
  - reflexivity.
  - apply IH. lia.
Qed.

Lemma startswith_hash (s : string) :
  PyStr.startswith s "#" = true -> exists t : string, s = String "#" t.
Proof.
  unfold PyStr.startswith. destruct s as [|h t]; cbn [prefix];
    [discriminate|].
  destruct (ascii_dec "#" h) as [E|]; [|discriminate].
  intros _. subst h. now exists t.
Qed.

Ltac next_hex_digit t c H :=
  let Hc := fresh "Hhex" in
  destruct t as [|c t]; simpl in H; [lia|];
  destruct (PyStr.is_hex_digit c) eqn:Hc; [|lia].

Lemma six_leading_hex_digits (t : string) :
  (6 <= leading_hex_digits t)%nat ->
  exists (a b c d e f : ascii) (rest : string),
    t = String a (String b (String c (String d (String e (String f rest)))))
    /\ PyStr.is_hex_digit a = true /\ PyStr.is_hex_digit b = true
    /\ PyStr.is_hex_digit c = true /\ PyStr.is_hex_digit d = true
    /\ PyStr.is_hex_digit e = true /\ PyStr.is_hex_digit f = true.
Proof.
  intros H.
  next_hex_digit t a H. next_hex_digit t b H. next_hex_digit t c H.
  next_hex_digit t d H. next_hex_digit t e H. next_hex_digit t f H.
  exists a, b, c, d, e, f, t. repeat split; assumption.
Qed.

Lemma fade_table_length (r g b : Z) :
  List.length (FadeSpec.table r g b) = Z.to_nat MAX_HISTORY.
Proof. reflexivity. Qed.

End FadeTableShape.

(** C3: for a base colour that is an RGB hex triple, [_update_color_cache]
    returns a table of MAX_HISTORY colours; slot [i] is the base colour
    scaled, component by component, by [max(0.2, 1 - i/(10*1.5))] and cut
    to integers (the binary64 computation of the code agrees with exact
    arithmetic on every byte); the factors lie in [0.2, 1.0], do not
    increase with [i], and the factor of slot 0 is exactly 1.0. *)
Theorem fade_table_of_rgb_hex (self : CaptionWindow.t) :
  is_rgb_hex (text_color (settings self)) = true ->
  exists r g b : Z,
    (0 <= r <= 255 /\ 0 <= g <= 255 /\ 0 <= b <= 255)
    /\ PyStr.int16 (PyStr.slice (text_color (settings self)) 1 3) = Some r
    /\ PyStr.int16 (PyStr.slice (text_color (settings self)) 3 5) = Some g
    /\ PyStr.int16 (PyStr.slice (text_color (settings self)) 5 7) = Some b
    /\ _update_color_cache self
       = (Returns tt, set_color_cache (FadeSpec.table r g b) self)
    /\ List.length (FadeSpec.table r g b) = Z.to_nat MAX_HISTORY
    /\ Forall
         (fun i : Z =>
            scale r (fade_factor i) = Returns (FadeSpec.scaled r i)
            /\ scale g (fade_factor i) = Returns (FadeSpec.scaled g i)
            /\ scale b (fade_factor i) = Returns (FadeSpec.scaled b i)
            /\ Qle_bool
                 (Qabs (PyFloat.to_Q (fade_factor i) - FadeSpec.factor i))
                 (1 # 2 ^ 53) = true
            /\ Qle_bool (2 # 10) (FadeSpec.factor i) = true
            /\ Qle_bool (FadeSpec.factor i) 1 = true
            /\ PyFloat.leb (PyFloat.literal 2 10) (fade_factor i) = true
            /\ PyFloat.leb (fade_factor i) (PyFloat.literal 10 10) = true)
         (PyStr.range MAX_HISTORY)
    /\ Forall
         (fun i : Z =>
            Qle_bool (FadeSpec.factor (i + 1)) (FadeSpec.factor i) = true
            /\ PyFloat.leb (fade_factor (i + 1)) (fade_factor i) = true)
         (PyStr.range (MAX_HISTORY - 1))
    /\ fade_factor 0 = PyFloat.literal 10 10
    /\ PyFloat.to_Q (fade_factor 0) == 1
    /\ FadeSpec.factor 0 == 1.
Proof.
  intros Hhex.
  destruct (text_color (settings self)) as [|h [|a [|b [|c [|d [|e [|f [|]]]]]]]]
    eqn:Hcol; try discriminate.
  cbn [is_rgb_hex] in Hhex.
  repeat (apply andb_prop in Hhex; destruct Hhex as [Hhex ?]).
  apply Ascii.eqb_eq in Hhex. subst h.
  destruct (update_color_cache_six_digits self a b c d e f EmptyString)
    as (r & g & bl & Hbytes & Hr & Hg & Hb & Hupd); try assumption.
  rewrite Hcol in Hr, Hg, Hb.
  exists r, g, bl.
  split; [exact Hbytes|]. split; [exact Hr|]. split; [exact Hg|].
  split; [exact Hb|]. split; [exact Hupd|].
  split; [apply fade_table_length|].
  split.
  { apply Forall_forall. intros i Hi.
    split; [apply scale_exact; [lia|exact Hi]|].
    split; [apply scale_exact; [lia|exact Hi]|].
    split; [apply scale_exact; [lia|exact Hi]|].
    cbv [PyStr.range MAX_HISTORY Z.to_nat Pos.to_nat Pos.iter_op Nat.add seq map]
      in Hi.
    cbn [Z.of_nat Pos.of_succ_nat Pos.succ In] in Hi.
    repeat (destruct Hi as [<-|Hi];
            [repeat split; vm_compute; reflexivity|]).
    destruct Hi. }
  split.
  { apply Forall_forall. intros i Hi.
    cbv [PyStr.range MAX_HISTORY Z.sub Z.add Z.opp Z.pos_sub Pos.pred_double
         Z.succ_double Z.pred_double Z.double
         Z.to_nat Pos.to_nat Pos.iter_op Nat.add seq map] in Hi.
    cbn [Z.of_nat Pos.of_succ_nat Pos.succ In] in Hi.
    repeat (destruct Hi as [<-|Hi];
            [repeat split; vm_compute; reflexivity|]).
    destruct Hi. }
  split; [vm_compute; reflexivity|].
  split; vm_compute; reflexivity.
Qed.

Lemma fade_table_of_rgb_hex_witness :
  let self := initial_window screen_1920x1080 in
  is_rgb_hex (text_color (settings self)) = true
  /\ exists r g b : Z,
       _update_color_cache self
       = (Returns tt, set_color_cache (FadeSpec.table r g b) self).
Proof.
  intros self. split; [reflexivity|].
  destruct (fade_table_of_rgb_hex self eq_refl)
    as (r & g & b & _ & _ & _ & _ & H & _).
  exists r, g, b. exact H.
Defined.

(** C4: for a base colour that does not start with [#],
    [_update_color_cache] returns normally and leaves MAX_HISTORY copies of
    the base colour itself. *)
Theorem named_color_table_is_flat (self : CaptionWindow.t) :
  PyStr.startswith (text_color (settings self)) "#" = false ->
  let '(r, self') := _update_color_cache self in
  r = Returns tt
  /\ self' = set_color_cache (repeat (text_color (settings self)) 10) self
  /\ List.length (color_cache self') = Z.to_nat MAX_HISTORY
  /\ Forall (fun c => c = text_color (settings self)) (color_cache self').
Proof.
  intros Hcol.
  unfold _update_color_cache, bind, get, modify.
  rewrite Hcol. cbn [negb settings set_color_cache text_color].
  split; [reflexivity|]. split; [reflexivity|].
  cbn [color_cache]. unfold PyStr.list_mul. split.
  - apply repeat_length.
  - apply Forall_forall. intros c Hc. now apply repeat_spec in Hc.
Qed.

Lemma named_color_table_is_flat_witness :
  let self :=
    set_settings (mkSettings "Helvetica" 24 "white" "floating" false)
      (initial_window screen_1920x1080) in
  PyStr.startswith (text_color (settings self)) "#" = false
  /\ color_cache (snd (_update_color_cache self))
     = ["white"; "white"; "white"; "white"; "white";
        "white"; "white"; "white"; "white"; "white"].
Proof.
  intros self. split; [reflexivity|].
  pose proof (named_color_table_is_flat self eq_refl) as H.
  destruct (_update_color_cache self) as [r self'].
  destruct H as (_ & -> & _). reflexivity.
Defined.

(** C10, as stated, fails: [#FFFFF] has only five hexadecimal digits after
    the [#], yet the table is computed; the one-character slice [F] parses
    as 15. *)
Lemma five_digit_color_yields_table :
  let self :=
    set_settings (mkSettings "Helvetica" 24 "#FFFFF" "floating" false)
      (initial_window screen_1920x1080) in
  ~ (PyStr.startswith (text_color (settings self)) "#" = true ->
     fst (_update_color_cache self) = Returns tt ->
     (6 <= leading_hex_digits (after_first (text_color (settings self))))%nat).
Proof.
  intros self H.
  assert (Hlt : (6 <= 5)%nat); [|lia].
  apply H; vm_compute; reflexivity.
Qed.

(** C10, amended: when the base colour starts with [#], the table is
    computed whenever at least six hexadecimal digits follow the [#], and
    [ValueError] is raised, with the table left empty, whenever fewer than
    five characters follow it (as in [#FFF]), because the slice [5:7] is
    then empty. *)
Theorem update_color_cache_totality (self : CaptionWindow.t) :
  PyStr.startswith (text_color (settings self)) "#" = true ->
  ((6 <= leading_hex_digits (after_first (text_color (settings self))))%nat ->
   exists table : list string,
     _update_color_cache self = (Returns tt, set_color_cache table self)
     /\ List.length table = Z.to_nat MAX_HISTORY)
  /\ ((String.length (text_color (settings self)) <= 5)%nat ->
      PyStr.slice (text_color (settings self)) 5 7 = EmptyString
      /\ PyStr.int16 EmptyString = None
      /\ _update_color_cache self
         = (Raises ValueError, set_color_cache [] self)).
Proof.
  intros Hhash. split.
  - intros Hsix.
    destruct (startswith_hash _ Hhash) as [t Ht].
    rewrite Ht in Hsix. cbn [after_first] in Hsix.
    destruct (six_leading_hex_digits t Hsix)
      as (a & b & c & d & e & f & rest & -> & Ha & Hb & Hc & Hd & He & Hf).
    destruct (update_color_cache_six_digits self a b c d e f rest Ht
                Ha Hb Hc Hd He Hf)
      as (r & g & bl & _ & _ & _ & _ & Hupd).
    exists (FadeSpec.table r g bl). split; [exact Hupd|].
    apply fade_table_length.
  - intros Hlen.
    assert (Hslice : PyStr.slice (text_color (settings self)) 5 7 = EmptyString)
      by (apply substring_short; exact Hlen).
    split; [exact Hslice|]. split; [reflexivity|].
    rewrite update_color_cache_hex by exact Hhash.
    rewrite Hslice.
    destruct (PyStr.int16 (PyStr.slice (text_color (settings self)) 1 3));
      [|reflexivity].
    destruct (PyStr.int16 (PyStr.slice (text_color (settings self)) 3 5));
      reflexivity.
Qed.

Lemma update_color_cache_totality_witness :
  (let self := initial_window screen_1920x1080 in
   exists table : list string,
     _update_color_cache self = (Returns tt, set_color_cache table self)
     /\ List.length table = Z.to_nat MAX_HISTORY)
  /\ (let self :=
        set_settings (mkSettings "Helvetica" 24 "#FFF" "floating" false)
          (initial_window screen_1920x1080) in
      _update_color_cache self = (Raises ValueError, set_color_cache [] self)).
Proof.
  split.
  - intros self.
    apply (proj1 (update_color_cache_totality self eq_refl)).
    vm_compute. lia.
  - intros self.
    apply (proj2 (update_color_cache_totality self eq_refl)).
    vm_compute. lia.
Defined.

(** ** Applying the settings *)

Section ApplySettings.

Lemma config_each_compose (u1 u2 : string -> Tk.Label -> Tk.Label)
    (cache : list string) :
  forall (labels : list Tk.Label) (i : nat),
    config_each u2 cache i (fst (config_each u1 cache i labels))
    = config_each (fun c l => u2 c (u1 c l)) cache i labels.
Proof.
  induction labels as [|lbl rest IH]; intros i; cbn [config_each].
  - reflexivity.
  - destruct (nth_error cache i) as [c|] eqn:Hc.
    + specialize (IH (S i)).
      destruct (config_each u1 cache (S i) rest) as [rest1 e1].
      cbn [fst config_each] in *. rewrite Hc, IH.
      now destruct (config_each (fun c l => u2 c (u1 c l)) cache (S i) rest).
    + cbn [fst config_each]. now rewrite Hc.
Qed.

Lemma config_each_ext (u v : string -> Tk.Label -> Tk.Label)
    (cache : list string) :
  (forall c l, u c l = v c l) ->
  forall (labels : list Tk.Label) (i : nat),
    config_each u cache i labels = config_each v cache i labels.
Proof.
  intros Huv. induction labels as [|lbl rest IH]; intros i; cbn [config_each].
  - reflexivity.
  - destruct (nth_error cache i); [|reflexivity].
    now rewrite IH, Huv.
Qed.

Lemma config_each_then (u1 u2 u3 : string -> Tk.Label -> Tk.Label)
    (cache : list string) :
  (forall c l, u2 c (u1 c l) = u3 c l) ->
  forall (labels : list Tk.Label) (i : nat),
    config_each u2 cache i (fst (config_each u1 cache i labels))
    = config_each u3 cache i labels.
Proof.
  intros H labels i. rewrite config_each_compose.
  now apply config_each_ext.
Qed.

Lemma config_each_fits (upd : string -> Tk.Label -> Tk.Label)
    (P : Tk.Label -> Prop) (cache : list string) :
  (forall c l, P (upd c l)) ->
  forall (labels : list Tk.Label) (i : nat),
    (i + List.length labels <= List.length cache)%nat ->
    snd (config_each upd cache i labels) = None
    /\ Forall P (fst (config_each upd cache i labels)).
Proof.
  intros HP. induction labels as [|lbl rest IH]; intros i Hfit;
    cbn [config_each List.length] in *.
  - split; [reflexivity|constructor].
  - destruct (nth_error cache i) as [c|] eqn:Hc.
    + destruct (IH (S i)) as [He HF]; [lia|].
      destruct (config_each upd cache (S i) rest) as [rest' e].
      cbn [fst snd] in *. split; [exact He|].
      constructor; [apply HP|exact HF].
    + apply nth_error_None in Hc. lia.
Qed.

Lemma layout_idempotent (s : Settings) (r : Tk.Root) :
  layout s (fst (layout s r)) = layout s r.
Proof.
  unfold layout.
  destruct (fullscreen s); cbn [negb].
  - reflexivity.
  - destruct (String.eqb (position s) "top"); [reflexivity|].
    destruct (String.eqb (position s) "bottom"); reflexivity.
Qed.

(** [_apply_visual_settings], step by step. *)
Lemma apply_visual_settings_steps (self : CaptionWindow.t) :
  _apply_visual_settings self
  = let font_spec :=
      (font_family (settings self), font_size (settings self)) in
    let color := text_color (settings self) in
    let pl1 := Tk.config_style font_spec color (partial_label self) in
    let '(hl1, e1) :=
      config_each (Tk.config_style font_spec) (color_cache self) 0
        (history_labels self) in
    match e1 with
    | Some x =>
        (Raises x,
         mk (root self) (settings self) (history self) (color_cache self)
            hl1 pl1 (transcriber self))
    | None =>
        let '(root', window_width) := layout (settings self) (root self) in
        let wrap_len := window_width - 50 in
        let pl2 := Tk.config_style_wrap font_spec wrap_len color pl1 in
        let '(hl2, e2) :=
          config_each (Tk.config_style_wrap font_spec wrap_len)
            (color_cache self) 0 hl1 in
        (match e2 with Some x => Raises x | None => Returns tt end,
         mk root' (settings self) (history self) (color_cache self)
            hl2 pl2 (transcriber self))
    end.
Proof.
  unfold _apply_visual_settings, bind, get, modify, config_history_labels.
  cbn [settings color_cache history_labels partial_label root
       set_partial_label set_history_labels set_root].
  destruct (config_each _ (color_cache self) 0 (history_labels self))
    as [hl1 [x|]]; [reflexivity|].
  cbn [settings color_cache history_labels partial_label root history
       transcriber set_partial_label set_history_labels set_root].
  destruct (layout (settings self) (root self)) as [root' window_width].
  cbn [settings color_cache history_labels partial_label root history
       transcriber set_partial_label set_history_labels set_root].
  destruct (config_each _ (color_cache self) 0 hl1) as [hl2 e2].
  reflexivity.
Qed.

Lemma apply_visual_settings_idempotent (self : CaptionWindow.t) :
  _apply_visual_settings (snd (_apply_visual_settings self))
  = _apply_visual_settings self.
Proof.
  rewrite (apply_visual_settings_steps self). cbv zeta.
  set (fs := (font_family (settings self), font_size (settings self))).
  set (color := text_color (settings self)).
  pose proof (config_each_then (Tk.config_style fs) (Tk.config_style fs)
                (Tk.config_style fs) (color_cache self)
                (fun _ _ => eq_refl) (history_labels self) 0%nat) as H11.
  destruct (config_each (Tk.config_style fs) (color_cache self) 0
              (history_labels self)) as [hl1 [x|]] eqn:E1;
    cbn [fst] in H11.
  - rewrite apply_visual_settings_steps.
    cbn [snd settings color_cache history_labels partial_label root history
         transcriber].
    fold fs color. rewrite H11. reflexivity.
  - pose proof (layout_idempotent (settings self) (root self)) as HL.
    destruct (layout (settings self) (root self)) as [root' ww] eqn:EL.
    cbn [fst] in HL.
    set (wrap := ww - 50).
    pose proof (config_each_then (Tk.config_style_wrap fs wrap)
                  (Tk.config_style fs) (Tk.config_style_wrap fs wrap)
                  (color_cache self) (fun _ _ => eq_refl) hl1 0%nat) as H21.
    pose proof (config_each_then (Tk.config_style_wrap fs wrap)
                  (Tk.config_style_wrap fs wrap)
                  (Tk.config_style_wrap fs wrap)
                  (color_cache self) (fun _ _ => eq_refl) hl1 0%nat) as H22.
    destruct (config_each (Tk.config_style_wrap fs wrap) (color_cache self)
                0 hl1) as [hl2 e2] eqn:E2.
    cbn [fst] in H21, H22.
    rewrite apply_visual_settings_steps.
    cbn [snd settings color_cache history_labels partial_label root history
         transcriber].
    fold fs color. rewrite H21.
    destruct e2 as [x|]; [reflexivity|].
    rewrite HL. fold wrap. rewrite H22. reflexivity.
Qed.

Lemma apply_visual_settings_frame (self : CaptionWindow.t) :
  settings (snd (_apply_visual_settings self)) = settings self
  /\ color_cache (snd (_apply_visual_settings self)) = color_cache self
  /\ history (snd (_apply_visual_settings self)) = history self.
Proof.
  rewrite apply_visual_settings_steps. cbv zeta.
  destruct (config_each _ (color_cache self) 0 (history_labels self))
    as [hl1 [x|]]; [repeat split|].
  destruct (layout (settings self) (root self)) as [root' ww].
  destruct (config_each _ (color_cache self) 0 hl1) as [hl2 e2].
  repeat split.
Qed.

End ApplySettings.



(** ** Applying the same settings twice *)

Section Idempotence.

Lemma fade_loop_shape (r g b : Z) (indices : list Z) :
  exists (o : outcome unit) (extra : list string),
    forall self : CaptionWindow.t,
      fade_loop r g b indices self
      = (o, set_color_cache (color_cache self ++ extra) self).
Proof.
  induction indices as [|i rest IH].
  - exists (Returns tt), []. intros self. cbn [fade_loop]. unfold ret.
    rewrite app_nil_r. now destruct self.
  - cbn [fade_loop]. unfold bind, lift, modify.
    destruct (scale r (fade_factor i)) as [nr|e];
      [|exists (Raises e), []; intros self; rewrite app_nil_r;
        now destruct self].
    destruct (scale g (fade_factor i)) as [ng|e];
      [|exists (Raises e), []; intros self; rewrite app_nil_r;
        now destruct self].
    destruct (scale b (fade_factor i)) as [nb|e];
      [|exists (Raises e), []; intros self; rewrite app_nil_r;
        now destruct self].
    destruct IH as (o & extra & IH).
    eexists o, (_ :: extra). intros self. rewrite IH.
    unfold set_color_cache.
    cbn [color_cache root settings history history_labels partial_label
         transcriber].
    now rewrite <- app_assoc.
Qed.

(** The table depends on the settings alone, and nothing but the table is
    written. *)
Lemma update_color_cache_shape (s : Settings) :
  exists (o : outcome unit) (cache : list string),
    forall self : CaptionWindow.t,
      settings self = s ->
      _update_color_cache self = (o, set_color_cache cache self).
Proof.
  destruct (PyStr.startswith (text_color s) "#") eqn:Hcol.
  - destruct (PyStr.int16 (PyStr.slice (text_color s) 1 3)) as [r|] eqn:Hr;
      [|exists (Raises ValueError), []; intros self <-;
        rewrite update_color_cache_hex by exact Hcol; now rewrite Hr].
    destruct (PyStr.int16 (PyStr.slice (text_color s) 3 5)) as [g|] eqn:Hg;
      [|exists (Raises ValueError), []; intros self <-;
        rewrite update_color_cache_hex by exact Hcol; now rewrite Hr, Hg].
    destruct (PyStr.int16 (PyStr.slice (text_color s) 5 7)) as [b|] eqn:Hb;
      [|exists (Raises ValueError), []; intros self <-;
        rewrite update_color_cache_hex by exact Hcol;
        now rewrite Hr, Hg, Hb].
    destruct (fade_loop_shape r g b (PyStr.range MAX_HISTORY))
      as (o & extra & Hloop).
    exists o, extra. intros self <-.
    rewrite update_color_cache_hex by exact Hcol.
    rewrite Hr, Hg, Hb, Hloop. reflexivity.
  - exists (Returns tt), (PyStr.list_mul (text_color s) MAX_HISTORY).
    intros self <-.
    unfold _update_color_cache, bind, get, modify.
    rewrite Hcol. reflexivity.
Qed.

End Idempotence.

(** C7: applying the same settings a second time, with the sizes the
    toolkit reports unchanged, gives the same outcome and leaves the whole
    window exactly as the first application left it; in particular the
    colour table, the requested geometry and the fullscreen flag are the
    same. *)
Theorem on_settings_changed_idempotent
    (new_settings : Settings) (self : CaptionWindow.t) :
  let '(r1, w1) := on_settings_changed new_settings self in
  let '(r2, w2) := on_settings_changed new_settings w1 in
  r2 = r1
  /\ w2 = w1
  /\ color_cache w2 = color_cache w1
  /\ Tk.geometry (root w2) = Tk.geometry (root w1)
  /\ Tk.attr_fullscreen (root w2) = Tk.attr_fullscreen (root w1).
Proof.
  assert (Hidem :
    on_settings_changed new_settings
      (snd (on_settings_changed new_settings self))
    = on_settings_changed new_settings self).
  { destruct (update_color_cache_shape new_settings) as (o & cache & Hupd).
    unfold on_settings_changed, bind, modify.
    rewrite (Hupd (set_settings new_settings self)) by reflexivity.
    destruct o as [[]|e].
    - set (w0 := set_color_cache cache (set_settings new_settings self)).
      destruct (apply_visual_settings_frame w0) as (Hs & Hc & _).
      pose proof (apply_visual_settings_idempotent w0) as Happly.
      destruct (_apply_visual_settings w0) as [r1 w1].
      cbn [snd] in *.
      rewrite (Hupd (set_settings new_settings w1)) by reflexivity.
      replace (set_color_cache cache (set_settings new_settings w1)) with w1.
      + exact Happly.
      + destruct w1. cbn [settings color_cache] in Hs, Hc.
        unfold w0 in Hs, Hc. cbn in Hs, Hc. subst. reflexivity.
    - cbn [snd].
      rewrite (Hupd _) by reflexivity.
      reflexivity. }
  destruct (on_settings_changed new_settings self) as [r1 w1].
  cbn [snd] in Hidem. rewrite Hidem.
  repeat split.
Qed.

(** * Further properties of the code *)

(** ** The transcriber's calls *)

Section TranscriberCalls.

Lemma make_call_started (a : AudioTranscriber.t) (c : call) :
  thread_is_started a -> thread_is_started (make_call a c).
Proof.
  unfold thread_is_started, make_call, AudioTranscriber.start,
    AudioTranscriber.stop, AudioTranscriber.join.
  destruct a as [path run [th|]], c; cbn [AudioTranscriber.thread
    AudioTranscriber.running AudioTranscriber.model_path];
    intros H; try rewrite H; destruct run; cbn; auto.
Qed.

Lemma make_calls_started (cs : list call) :
  forall a, thread_is_started a -> thread_is_started (make_calls cs a).
Proof.
  induction cs as [|c cs IH]; intros a Ha; cbn; [exact Ha|].
  apply IH. now apply make_call_started.
Qed.

Lemma make_call_running (a : AudioTranscriber.t) (c : call) :
  AudioTranscriber.running (make_call a c)
  = match c with Start => true | Stop => false end.
Proof.
  unfold make_call, AudioTranscriber.start, AudioTranscriber.stop,
    AudioTranscriber.join.
  destruct a as [path run [[dm st]|]], c; cbn [AudioTranscriber.thread
    AudioTranscriber.running AudioTranscriber.model_path
    AudioTranscriber.started];
    destruct run; try destruct st; reflexivity.
Qed.

Lemma make_calls_snoc (cs : list call) (c : call) (a : AudioTranscriber.t) :
  make_calls (cs ++ [c]) a = make_call (make_calls cs a) c.
Proof. unfold make_calls. now rewrite fold_left_app. Qed.

End TranscriberCalls.

(** X1: whatever calls of [start] and [stop] a fresh transcriber has seen,
    a further [stop] returns normally (the thread it joins has been
    started), and [running] tells whether the last call was [start]. *)
Theorem stop_returns_after_any_calls (path : string) (cs : list call) :
  let a := make_calls cs (AudioTranscriber.__init__ path) in
  fst (fst (AudioTranscriber.stop a)) = Returns tt
  /\ AudioTranscriber.running a
     = match last cs Stop with Start => true | Stop => false end.
Proof.
  intros a. split.
  - assert (Ha : thread_is_started a)
      by (apply make_calls_started; exact I).
    unfold thread_is_started in Ha. unfold AudioTranscriber.stop.
    cbn [AudioTranscriber.thread].
    destruct (AudioTranscriber.thread a) as [th|]; [|reflexivity].
    unfold AudioTranscriber.join. now rewrite Ha.
  - unfold a. destruct cs as [|c cs] using rev_ind; [reflexivity|].
    rewrite make_calls_snoc, make_call_running, last_last. reflexivity.
Qed.

(** X2: [start] on a transcriber that is running changes nothing and
    starts no thread; so two calls of [start] in a row start one thread at
    most. *)
Theorem start_twice_starts_once (self : AudioTranscriber.t) :
  let '(a, effs) := AudioTranscriber.start self in
  AudioTranscriber.running a = true
  /\ AudioTranscriber.start a = (a, [])
  /\ (List.length effs <= 1)%nat
  /\ (if AudioTranscriber.running self
      then a = self /\ effs = []
      else exists th, AudioTranscriber.thread a = Some th
                      /\ AudioTranscriber.daemon th = true
                      /\ effs = [AudioTranscriber.ThreadStart th]).
Proof.
  unfold AudioTranscriber.start.
  destruct (AudioTranscriber.running self) eqn:Hrun; cbn.
  - rewrite Hrun. repeat split; auto.
  - repeat split; auto. eexists. repeat split.
Qed.

(** ** The recognition loop *)

Section RecognitionLoop.

Lemma truthy_nonempty (text : string) :
  Recognition.truthy text = true -> text <> "".
Proof.
  unfold Recognition.truthy. intros H ->. discriminate H.
Qed.

Lemma listen_nonempty (ticks : list Recognition.tick) :
  Forall (fun ev => ev_text ev <> "") (Recognition.listen ticks).
Proof.
  induction ticks as [|[|[field|field|message]] rest IH];
    cbn [Recognition.listen]; auto.
  - destruct (Recognition.truthy _) eqn:Ht; [|exact IH].
    constructor; [|exact IH]. now apply truthy_nonempty.
  - destruct (Recognition.truthy _) eqn:Ht; [|exact IH].
    constructor; [|exact IH]. now apply truthy_nonempty.
  - repeat constructor. discriminate.
Qed.

Lemma listen_app (before after : list Recognition.tick) :
  existsb is_failure before = false ->
  Recognition.listen (before ++ after)
  = Recognition.listen before ++ Recognition.listen after.
Proof.
  induction before as [|[|[field|field|message]] rest IH];
    cbn [existsb is_failure orb app Recognition.listen]; intros H;
    try discriminate; auto.
  - destruct (Recognition.truthy _); cbn [app]; now rewrite IH.
  - destruct (Recognition.truthy _); cbn [app]; now rewrite IH.
Qed.

End RecognitionLoop.

(** X3: every call of the text callback the loop makes carries a non-empty
    text: empty results of the recogniser are dropped, and the error
    reports are never empty. *)
Theorem recognition_events_nonempty
    (model_error stream_error : option string)
    (ticks : list Recognition.tick) :
  Forall (fun ev => ev_text ev <> "")
         (Recognition._recognition_loop model_error stream_error ticks).
Proof.
  unfold Recognition._recognition_loop.
  destruct model_error as [e|]; [repeat constructor; discriminate|].
  destruct stream_error as [e|]; [repeat constructor; discriminate|].
  apply listen_nonempty.
Qed.

(** X4: the first exception of the recogniser ends the loop: the events of
    the passes before it are followed by one final event that reports the
    error, and the passes after it are never made. *)
Theorem recognition_stops_at_failure
    (before after : list Recognition.tick) (message : string) :
  existsb is_failure before = false ->
  Recognition._recognition_loop None None
    (before ++ Recognition.Frame (Recognition.Failed message) :: after)
  = Recognition.listen before
    ++ [mkEvent ("Audio Error: " ++ message) true].
Proof.
  intros Hclean. unfold Recognition._recognition_loop.
  now rewrite listen_app.
Qed.

Lemma recognition_stops_at_failure_witness :
  Recognition._recognition_loop None None
    ([Recognition.Timeout;
      Recognition.Frame (Recognition.Pending (Some "hel"));
      Recognition.Frame (Recognition.Accepted (Some "hello"))]
     ++ Recognition.Frame (Recognition.Failed "device lost")
     :: [Recognition.Frame (Recognition.Accepted (Some "never heard"))])
  = [mkEvent "hel" false; mkEvent "hello" true;
     mkEvent "Audio Error: device lost" true].
Proof.
  exact (recognition_stops_at_failure
           [Recognition.Timeout;
            Recognition.Frame (Recognition.Pending (Some "hel"));
            Recognition.Frame (Recognition.Accepted (Some "hello"))]
           [Recognition.Frame (Recognition.Accepted (Some "never heard"))]
           "device lost" eq_refl).
Defined.

Section HistoryShape.

Lemma firstn_pad (l : list string) :
  firstn 10 (l ++ repeat "" 10)
  = firstn (Nat.min (List.length l) 10) l
    ++ repeat "" (10 - Nat.min (List.length l) 10).
Proof.
  rewrite firstn_app, firstn_repeat. f_equal.
  - destruct (Nat.le_gt_cases (List.length l) 10) as [Hk|Hk].
    + rewrite !firstn_all2; auto; lia.
    + now replace (Nat.min (List.length l) 10) with 10%nat by lia.
  - f_equal. lia.
Qed.

Lemma final_texts_nonempty (evs : list TranscriptionEvent) :
  Forall (fun ev => ev_text ev <> "") evs ->
  Forall (fun t => t <> "") (final_texts evs).
Proof.
  unfold final_texts. induction 1 as [|ev evs Hev _ IH]; cbn; [constructor|].
  destruct (is_final ev); cbn; auto.
Qed.

Lemma Forall_firstn {A : Type} (P : A -> Prop) (n : nat) (l : list A) :
  Forall P l -> Forall P (firstn n l).
Proof.
  intros H. revert n. induction H; intros [|n]; cbn; auto.
Qed.

End HistoryShape.

(** X5: fed with the events of the recognition loop, the window shows the
    last captions as a block of non-empty slots followed by empty ones:
    with [k] the smaller of 10 and the number of final events, the first
    [k] history slots are non-empty and the other [10 - k] are empty. *)
Theorem history_after_recognition (root : Tk.Root)
    (model_error stream_error : option string)
    (ticks : list Recognition.tick) :
  let evs := Recognition._recognition_loop model_error stream_error ticks in
  let w := process_events evs (initial_window root) in
  let k := Nat.min (List.length (final_texts evs)) 10 in
  Forall (fun t => t <> "") (firstn k (history w))
  /\ skipn k (history w) = repeat "" (10 - k).
Proof.
  intros evs w k.
  assert (Hw : history w
               = firstn k (rev (final_texts evs)) ++ repeat "" (10 - k)).
  { unfold w. rewrite history_process_events by reflexivity.
    rewrite initial_history, firstn_pad, length_rev. reflexivity. }
  assert (Hlen : List.length (firstn k (rev (final_texts evs))) = k).
  { apply firstn_length_le. rewrite length_rev. unfold k. lia. }
  rewrite Hw. split.
  - rewrite firstn_app, Hlen, Nat.sub_diag, firstn_0, app_nil_r.
    rewrite firstn_firstn, Nat.min_id.
    apply Forall_firstn, Forall_rev, final_texts_nonempty.
    unfold evs, Recognition._recognition_loop.
    destruct model_error as [e|]; [repeat constructor; discriminate|].
    destruct stream_error as [e|]; [repeat constructor; discriminate|].
    apply listen_nonempty.
  - rewrite skipn_app, Hlen, Nat.sub_diag. cbn [skipn].
    rewrite skipn_all2 by lia. reflexivity.
Qed.

(** ** The colour table on every colour string *)

Section AnyColor.

Lemma in_short_strings (s : string) :
  (String.length s <= 2)%nat -> In s short_strings.
Proof.
  unfold short_strings.
  destruct s as [|a [|b [|c s]]]; cbn [String.length]; intros Hlen.
  - now left.
  - right. apply in_or_app. left. apply in_map_iff.
    exists a. split; [reflexivity|apply in_all_ascii].
  - right. apply in_or_app. right. apply in_flat_map.
    exists a. split; [apply in_all_ascii|].
    apply in_map_iff. exists b. split; [reflexivity|apply in_all_ascii].
  - lia.
Qed.

Lemma short_parses_in_range :
  forallb short_parse_in_range short_strings = true.
Proof. vm_compute. reflexivity. Qed.

Lemma substring_length (s : string) :
  forall n m : nat, (String.length (substring n m s) <= m)%nat.
Proof.
  induction s as [|c s IH]; intros [|n] [|m]; cbn; try lia.
  - specialize (IH 0%nat m). lia.
  - apply IH.
  - apply IH.
Qed.

Lemma int16_slice_range (col : string) (i : nat) (v : Z) :
  PyStr.int16 (PyStr.slice col i (i + 2)) = Some v -> -15 <= v <= 255.
Proof.
  intros Hv.
  pose proof short_parses_in_range as H.
  rewrite forallb_forall in H.
  specialize (H (PyStr.slice col i (i + 2))).
  unfold short_parse_in_range in H. rewrite Hv in H.
  assert (Hin : In (PyStr.slice col i (i + 2)) short_strings).
  { apply in_short_strings. unfold PyStr.slice.
    replace (i + 2 - i)%nat with 2%nat by lia. apply substring_length. }
  specialize (H Hin). lia.
Qed.

Lemma in_interval (lo n v : Z) : lo <= v < lo + n -> In v (interval lo n).
Proof.
  intros Hv. unfold interval. apply in_map_iff.
  exists (v - lo). split; [lia|]. apply in_range. lia.
Qed.

Lemma scale_agrees_on_parses :
  forallb (fun c => forallb (scale_agrees c) (PyStr.range MAX_HISTORY))
          (interval (-15) 271) = true.
Proof. vm_compute. reflexivity. Qed.

Lemma scale_exact_parsed (c i : Z) :
  -15 <= c <= 255 -> In i (PyStr.range MAX_HISTORY) ->
  scale c (fade_factor i) = Returns (FadeSpec.scaled c i).
Proof.
  intros Hc Hi.
  pose proof scale_agrees_on_parses as H.
  rewrite forallb_forall in H.
  specialize (H c (in_interval (-15) 271 c ltac:(lia))).
  rewrite forallb_forall in H. specialize (H i Hi).
  unfold scale_agrees in H.
  destruct (scale c (fade_factor i)) as [v|]; [|discriminate].
  apply Z.eqb_eq in H. now subst.
Qed.

Lemma fade_loop_exact_parsed (r g b : Z) :
  -15 <= r <= 255 -> -15 <= g <= 255 -> -15 <= b <= 255 ->
  forall (indices : list Z) (self : CaptionWindow.t),
    (forall i, In i indices -> In i (PyStr.range MAX_HISTORY)) ->
    fade_loop r g b indices self
    = (Returns tt,
       set_color_cache
         (color_cache self ++ map (FadeSpec.color r g b) indices) self).
Proof.
  intros Hr Hg Hb.
  induction indices as [|i rest IH]; intros self Hin.
  - cbn [fade_loop map]. rewrite app_nil_r. now destruct self.
  - cbn [fade_loop]. unfold bind, lift, modify.
    rewrite !scale_exact_parsed by (auto; apply Hin; now left).
    rewrite IH by (intros j Hj; apply Hin; now right).
    unfold set_color_cache. cbn [color_cache root settings history
      history_labels partial_label transcriber map].
    now rewrite <- app_assoc.
Qed.

Lemma update_color_cache_parsed (self : CaptionWindow.t) (r g b : Z) :
  PyStr.startswith (text_color (settings self)) "#" = true ->
  PyStr.int16 (PyStr.slice (text_color (settings self)) 1 3) = Some r ->
  PyStr.int16 (PyStr.slice (text_color (settings self)) 3 5) = Some g ->
  PyStr.int16 (PyStr.slice (text_color (settings self)) 5 7) = Some b ->
  _update_color_cache self
  = (Returns tt, set_color_cache (FadeSpec.table r g b) self).
Proof.
  intros Hcol Hr Hg Hb.
  rewrite update_color_cache_hex by exact Hcol.
  rewrite Hr, Hg, Hb.
  rewrite fade_loop_exact_parsed; auto.
  - apply (int16_slice_range _ 1 r Hr).
  - apply (int16_slice_range _ 3 g Hg).
  - apply (int16_slice_range _ 5 b Hb).
Qed.

Lemma update_color_cache_by_usable (self : CaptionWindow.t) :
  exists cache : list string,
    _update_color_cache self
    = (if color_usable (text_color (settings self))
       then Returns tt else Raises ValueError,
       set_color_cache cache self)
    /\ List.length cache
       = (if color_usable (text_color (settings self))
          then Z.to_nat MAX_HISTORY else 0%nat).
Proof.
  unfold color_usable.
  destruct (PyStr.startswith (text_color (settings self)) "#") eqn:Hcol;
    cbn [negb orb].
  - destruct (PyStr.int16 (PyStr.slice (text_color (settings self)) 1 3))
      as [r|] eqn:Hr;
      [|exists []; rewrite update_color_cache_hex, Hr by exact Hcol;
        now split].
    destruct (PyStr.int16 (PyStr.slice (text_color (settings self)) 3 5))
      as [g|] eqn:Hg;
      [|exists []; rewrite update_color_cache_hex, Hr, Hg by exact Hcol;
        now split].
    destruct (PyStr.int16 (PyStr.slice (text_color (settings self)) 5 7))
      as [b|] eqn:Hb;
      [|exists []; rewrite update_color_cache_hex, Hr, Hg, Hb by exact Hcol;
        now split].
    exists (FadeSpec.table r g b). cbn [andb]. split.
    + now apply update_color_cache_parsed.
    + reflexivity.
  - exists (PyStr.list_mul (text_color (settings self)) MAX_HISTORY). split.
    + unfold _update_color_cache, bind, get, modify. now rewrite Hcol.
    + apply repeat_length.
Qed.

End AnyColor.

(** X6: whenever the base colour starts with [#] and its three slices
    parse, also as signed or space-padded numbers such as [-f] or [ 1],
    the components lie between -15 and 255 and the table is the exact
    arithmetic one: the binary64 rounding never shows. *)
Theorem fade_table_of_parsed_color (self : CaptionWindow.t) (r g b : Z) :
  PyStr.startswith (text_color (settings self)) "#" = true ->
  PyStr.int16 (PyStr.slice (text_color (settings self)) 1 3) = Some r ->
  PyStr.int16 (PyStr.slice (text_color (settings self)) 3 5) = Some g ->
  PyStr.int16 (PyStr.slice (text_color (settings self)) 5 7) = Some b ->
  (-15 <= r <= 255 /\ -15 <= g <= 255 /\ -15 <= b <= 255)
  /\ _update_color_cache self
     = (Returns tt, set_color_cache (FadeSpec.table r g b) self).
Proof.
  intros Hcol Hr Hg Hb. split.
  - split; [apply (int16_slice_range _ 1 r Hr)|].
    split; [apply (int16_slice_range _ 3 g Hg)|].
    apply (int16_slice_range _ 5 b Hb).
  - now apply update_color_cache_parsed.
Qed.

Lemma fade_table_of_parsed_color_witness :
  let self :=
    set_settings (mkSettings "Helvetica" 24 "#-f 1a " "floating" false)
      (initial_window screen_1920x1080) in
  color_cache (snd (_update_color_cache self))
  = ["#-f010a"; "#-e0009"; "#-d0008"; "#-c0008"; "#-b0007";
     "#-a0006"; "#-90006"; "#-80005"; "#-70004"; "#-60004"].
Proof.
  intros self.
  pose proof (fade_table_of_parsed_color self (-15) 1 10
                eq_refl eq_refl eq_refl eq_refl) as [_ H].
  rewrite H. vm_compute. reflexivity.
Defined.

(** X7: [_update_color_cache] returns normally exactly on the usable
    colours (those that do not start with [#], or whose three slices all
    parse) and leaves ten colours; on every other colour it raises
    [ValueError] and leaves the table empty.  It raises nothing else and
    writes nothing but the table. *)
Theorem update_color_cache_outcome (self : CaptionWindow.t) :
  let usable := color_usable (text_color (settings self)) in
  let '(r, self') := _update_color_cache self in
  r = (if usable then Returns tt else Raises ValueError)
  /\ List.length (color_cache self') = (if usable then 10%nat else 0%nat)
  /\ self' = set_color_cache (color_cache self') self.
Proof.
  intros usable.
  destruct (update_color_cache_by_usable self) as (cache & Hupd & Hlen).
  rewrite Hupd. fold usable in Hlen |- *.
  cbn [color_cache set_color_cache].
  split; [reflexivity|]. split; [|reflexivity].
  rewrite Hlen. now destruct usable.
Qed.

(** ** Text updates and the label pool *)

Section LabelPool.

Lemma skipn_nth (h : list string) :
  forall i : nat, (i < List.length h)%nat ->
    skipn i h = nth i h "" :: skipn (S i) h.
Proof.
  induction h as [|x h IH]; intros [|i] Hi; cbn [List.length] in *;
    try lia; [reflexivity|].
  cbn [skipn nth]. rewrite IH by lia. reflexivity.
Qed.

Lemma show_history_length (h : list string) (labels : list Tk.Label) :
  forall i : nat,
    List.length (show_history h i labels) = List.length labels.
Proof.
  induction labels as [|lbl rest IH]; intros i; cbn [show_history List.length];
    [reflexivity|]. now rewrite IH.
Qed.

Lemma show_history_texts (h : list string) (labels : list Tk.Label) :
  forall i : nat,
    List.length labels = List.length (skipn i h) ->
    map Tk.text (show_history h i labels) = skipn i h.
Proof.
  induction labels as [|lbl rest IH]; intros i Hlen;
    cbn [show_history List.length map] in *.
  - symmetry. now apply length_zero_iff_nil.
  - rewrite length_skipn in Hlen.
    assert (Hi : (i < List.length h)%nat) by lia.
    apply Nat.ltb_lt in Hi. rewrite Hi. apply Nat.ltb_lt in Hi.
    rewrite (skipn_nth h i Hi). cbn [Tk.config_text Tk.text]. f_equal.
    apply IH. rewrite length_skipn. lia.
Qed.

Lemma show_history_styles (h : list string) (labels : list Tk.Label) :
  forall i : nat,
    map label_style (show_history h i labels) = map label_style labels.
Proof.
  induction labels as [|lbl rest IH]; intros i; cbn [show_history map];
    [reflexivity|].
  rewrite IH. now destruct (i <? List.length h)%nat.
Qed.

Lemma config_each_keeps (upd : string -> Tk.Label -> Tk.Label)
    (cache : list string) :
  (forall c l, Tk.text (upd c l) = Tk.text l) ->
  forall (labels : list Tk.Label) (i : nat),
    map Tk.text (fst (config_each upd cache i labels)) = map Tk.text labels
    /\ List.length (fst (config_each upd cache i labels))
       = List.length labels.
Proof.
  intros Hupd. induction labels as [|lbl rest IH]; intros i;
    cbn [config_each].
  - now split.
  - destruct (nth_error cache i) as [c|]; [|now split].
    destruct (IH (S i)) as [Ht Hl].
    destruct (config_each upd cache (S i) rest) as [rest' e].
    cbn [fst map List.length] in *. rewrite Hupd, Ht, Hl. now split.
Qed.

Lemma config_each_show_history (upd : string -> Tk.Label -> Tk.Label)
    (cache : list string) (h : list string) :
  (forall c t l, upd c (Tk.config_text t l) = Tk.config_text t (upd c l)) ->
  forall (labels : list Tk.Label) (i j : nat),
    config_each upd cache i (show_history h j labels)
    = (show_history h j (fst (config_each upd cache i labels)),
       snd (config_each upd cache i labels)).
Proof.
  intros Hupd. induction labels as [|lbl rest IH]; intros i j;
    cbn [show_history config_each].
  - reflexivity.
  - destruct (nth_error cache i) as [c|]; [|reflexivity].
    rewrite IH.
    destruct (config_each upd cache (S i) rest) as [rest' e].
    cbn [fst snd show_history]. f_equal. f_equal.
    destruct (j <? List.length h)%nat; apply Hupd.
Qed.

Lemma process_events_snoc (evs : list TranscriptionEvent)
    (ev : TranscriptionEvent) (w : CaptionWindow.t) :
  process_events (evs ++ [ev]) w
  = _process_text_update (ev_text ev) (is_final ev) (process_events evs w).
Proof. unfold process_events. now rewrite fold_left_app. Qed.

End LabelPool.

(** X8: however many events are processed, the partial label shows the
    text of the last event if that is a partial one and nothing if it is a
    final one. *)
Theorem partial_label_after_events
    (evs : list TranscriptionEvent) (w : CaptionWindow.t) :
  Tk.text (partial_label (process_events evs w))
  = partial_after evs (Tk.text (partial_label w)).
Proof.
  unfold partial_after.
  destruct evs as [|ev evs] using rev_ind; [reflexivity|].
  rewrite process_events_snoc, rev_app_distr. cbn [rev app].
  unfold _process_text_update. now destruct (is_final ev).
Qed.

(** X9: text updates never create, destroy or restyle a widget and never
    touch the settings: after any run of events the pool has as many labels
    as before, each with the font, colour and wrap length it had, and the
    root window, the settings, the colour table and the transcriber are as
    they were. *)
Theorem events_keep_the_look
    (evs : list TranscriptionEvent) (w : CaptionWindow.t) :
  let w' := process_events evs w in
  List.length (history_labels w') = List.length (history_labels w)
  /\ map label_style (history_labels w') = map label_style (history_labels w)
  /\ label_style (partial_label w') = label_style (partial_label w)
  /\ root w' = root w
  /\ settings w' = settings w
  /\ color_cache w' = color_cache w
  /\ transcriber w' = transcriber w.
Proof.
  cbv zeta. revert w.
  induction evs as [|[text final] evs IH]; intros w.
  - repeat split.
  - change (process_events ({| ev_text := text; is_final := final |} :: evs) w)
      with (process_events evs (_process_text_update text final w)).
    destruct (IH (_process_text_update text final w))
      as (H1 & H2 & H3 & H4 & H5 & H6 & H7).
    rewrite H1, H2, H3, H4, H5, H6, H7.
    unfold _process_text_update. destruct final;
      cbn [history_labels partial_label root settings color_cache transcriber
           set_history set_history_labels set_partial_label history].
    + rewrite show_history_length, show_history_styles. repeat split.
    + repeat split.
Qed.

(** ** Settings changes on any window *)

Section SettingsChange.

Lemma on_settings_changed_cases (s : Settings) (w : CaptionWindow.t) :
  exists cache : list string,
    List.length cache
    = (if color_usable (text_color s) then 10%nat else 0%nat)
    /\ on_settings_changed s w
       = if color_usable (text_color s)
         then _apply_visual_settings (set_color_cache cache (set_settings s w))
         else (Raises ValueError, set_color_cache cache (set_settings s w)).
Proof.
  destruct (update_color_cache_by_usable (set_settings s w))
    as (cache & Hupd & Hlen).
  cbn [settings set_settings] in Hupd, Hlen.
  exists cache. split.
  - rewrite Hlen. now destruct (color_usable (text_color s)).
  - unfold on_settings_changed, bind, modify. rewrite Hupd.
    now destruct (color_usable (text_color s)).
Qed.

Lemma apply_visual_settings_keeps (self : CaptionWindow.t) :
  let w := snd (_apply_visual_settings self) in
  history w = history self
  /\ map Tk.text (history_labels w) = map Tk.text (history_labels self)
  /\ List.length (history_labels w) = List.length (history_labels self)
  /\ Tk.text (partial_label w) = Tk.text (partial_label self)
  /\ transcriber w = transcriber self
  /\ settings w = settings self
  /\ color_cache w = color_cache self.
Proof.
  cbv zeta. rewrite apply_visual_settings_steps. cbv zeta.
  destruct (config_each_keeps
              (Tk.config_style
                 (font_family (settings self), font_size (settings self)))
              (color_cache self) (fun _ _ => eq_refl)
              (history_labels self) 0%nat) as [Ht1 Hl1].
  destruct (config_each (Tk.config_style _) (color_cache self) 0
              (history_labels self)) as [hl1 [x|]]; cbn [fst] in Ht1, Hl1.
  - cbn [snd history history_labels partial_label transcriber settings
         color_cache]. repeat split; assumption.
  - destruct (layout (settings self) (root self)) as [root' ww].
    destruct (config_each_keeps
                (Tk.config_style_wrap
                   (font_family (settings self), font_size (settings self))
                   (ww - 50))
                (color_cache self) (fun _ _ => eq_refl) hl1 0%nat)
      as [Ht2 Hl2].
    destruct (config_each (Tk.config_style_wrap _ (ww - 50))
                (color_cache self) 0 hl1) as [hl2 e2]; cbn [fst] in Ht2, Hl2.
    cbn [snd history history_labels partial_label transcriber settings
         color_cache].
    repeat split; congruence.
Qed.

Lemma apply_visual_settings_returns (self : CaptionWindow.t) :
  (List.length (history_labels self) <= List.length (color_cache self))%nat ->
  fst (_apply_visual_settings self) = Returns tt.
Proof.
  intros Hfit. rewrite apply_visual_settings_steps. cbv zeta.
  destruct (config_each_fits
              (Tk.config_style
                 (font_family (settings self), font_size (settings self)))
              (fun _ => True) (color_cache self) (fun _ _ => I)
              (history_labels self) 0%nat Hfit) as [He1 _].
  destruct (config_each_keeps
              (Tk.config_style
                 (font_family (settings self), font_size (settings self)))
              (color_cache self) (fun _ _ => eq_refl)
              (history_labels self) 0%nat) as [_ Hl1].
  destruct (config_each (Tk.config_style _) (color_cache self) 0
              (history_labels self)) as [hl1 e1].
  cbn [fst snd] in He1, Hl1. subst e1.
  destruct (layout (settings self) (root self)) as [root' ww].
  destruct (config_each_fits
              (Tk.config_style_wrap
                 (font_family (settings self), font_size (settings self))
                 (ww - 50))
              (fun _ => True) (color_cache self) (fun _ _ => I)
              hl1 0%nat ltac:(cbn [Nat.add]; lia)) as [He2 _].
  destruct (config_each (Tk.config_style_wrap _ (ww - 50))
              (color_cache self) 0 hl1) as [hl2 e2].
  cbn [fst snd] in He2. subst e2. reflexivity.
Qed.

Lemma on_settings_changed_keeps (s : Settings) (w : CaptionWindow.t) :
  let w' := snd (on_settings_changed s w) in
  history w' = history w
  /\ map Tk.text (history_labels w') = map Tk.text (history_labels w)
  /\ List.length (history_labels w') = List.length (history_labels w)
  /\ Tk.text (partial_label w') = Tk.text (partial_label w)
  /\ transcriber w' = transcriber w
  /\ settings w' = s
  /\ List.length (color_cache w')
     = (if color_usable (text_color s) then 10%nat else 0%nat).
Proof.
  cbv zeta.
  destruct (on_settings_changed_cases s w) as (cache & Hlen & ->).
  destruct (color_usable (text_color s)).
  - destruct (apply_visual_settings_keeps
                (set_color_cache cache (set_settings s w)))
      as (H1 & H2 & H3 & H4 & H5 & H6 & H7).
    rewrite H1, H2, H3, H4, H5, H6, H7. repeat split. exact Hlen.
  - repeat split. exact Hlen.
Qed.

End SettingsChange.

(** X10: a settings change, whether it returns or raises, never loses a
    caption: the history, the texts the labels show, the text of the
    partial label and the size of the pool are as before; the new settings
    are stored in either case. *)
Theorem settings_change_keeps_captions (s : Settings) (w : CaptionWindow.t) :
  let w' := snd (on_settings_changed s w) in
  history w' = history w
  /\ map Tk.text (history_labels w') = map Tk.text (history_labels w)
  /\ List.length (history_labels w') = List.length (history_labels w)
  /\ Tk.text (partial_label w') = Tk.text (partial_label w)
  /\ settings w' = s.
Proof.
  cbv zeta.
  destruct (on_settings_changed_keeps s w) as (H1 & H2 & H3 & H4 & _ & H6 & _).
  repeat split; assumption.
Qed.

Section Reachable.

Lemma initial_window_ok (root : Tk.Root) : window_ok (initial_window root).
Proof.
  unfold window_ok. split; [|split; [|split]]; try reflexivity. now left.
Qed.

Lemma perform_ok (w : CaptionWindow.t) (a : action) :
  window_ok w -> window_ok (perform w a).
Proof.
  intros (Hh & Hl & Ht & Hc).
  destruct a as [[text final]|s|width]; cbn [perform];
    [| |unfold window_ok; split; [|split; [|split]]; assumption].
  - cbn [ev_text is_final]. unfold _process_text_update, window_ok.
    destruct final; [|split; [|split; [|split]]; assumption].
    cbn [history history_labels color_cache set_history set_history_labels
         set_partial_label].
    assert (Hp : List.length (push text (history w)) = 10%nat)
      by now apply push_length.
    split; [|split; [|split]].
    + exact Hp.
    + now rewrite show_history_length.
    + rewrite show_history_texts; [reflexivity|].
      cbn [skipn]. congruence.
    + exact Hc.
  - destruct (on_settings_changed_keeps s w)
      as (H1 & H2 & H3 & _ & _ & _ & H7).
    unfold window_ok. split; [|split; [|split]].
    + congruence.
    + congruence.
    + congruence.
    + destruct (color_usable (text_color s)); [now left|right].
      now apply length_zero_iff_nil.
Qed.

Lemma run_actions_ok (acts : list action) :
  forall w, window_ok w -> window_ok (run_actions acts w).
Proof.
  induction acts as [|a acts IH]; intros w Hw; cbn; [exact Hw|].
  apply IH. now apply perform_ok.
Qed.

Lemma perform_transcriber (w : CaptionWindow.t) (a : action) :
  transcriber (perform w a) = transcriber w.
Proof.
  destruct a as [[text final]|s|width]; cbn [perform].
  - unfold _process_text_update. now destruct final.
  - now destruct (on_settings_changed_keeps s w) as (_ & _ & _ & _ & H & _).
  - reflexivity.
Qed.

Lemma run_actions_transcriber (acts : list action) :
  forall w, transcriber (run_actions acts w) = transcriber w.
Proof.
  induction acts as [|a acts IH]; intros w; cbn; [reflexivity|].
  now rewrite IH, perform_transcriber.
Qed.

End Reachable.

(** X11: in every window the event loop can reach from [__init__], by text
    updates, settings changes (failed ones included) and changes of the
    reported window width, in any order, the
    history has ten entries, the pool has ten labels, and the labels show
    exactly the history, slot by slot; the colour table has ten colours or,
    after a failed change, none. *)
Theorem reachable_window_in_sync (root : Tk.Root) (acts : list action) :
  let w := run_actions acts (initial_window root) in
  List.length (history w) = 10%nat
  /\ List.length (history_labels w) = 10%nat
  /\ map Tk.text (history_labels w) = history w
  /\ (List.length (color_cache w) = 10%nat \/ color_cache w = []).
Proof.
  intros w. apply (run_actions_ok acts), initial_window_ok.
Qed.

(** ** Text updates and settings changes together *)

Section Commute.

Lemma apply_visual_settings_commutes
    (text : string) (final : bool) (self : CaptionWindow.t) :
  _apply_visual_settings (_process_text_update text final self)
  = (fst (_apply_visual_settings self),
     _process_text_update text final (snd (_apply_visual_settings self))).
Proof.
  rewrite !apply_visual_settings_steps. cbv zeta.
  unfold _process_text_update. destruct final;
    cbn [history history_labels color_cache settings root partial_label
         transcriber set_history set_history_labels set_partial_label].
  - rewrite config_each_show_history by reflexivity.
    destruct (config_each (Tk.config_style _) (color_cache self) 0
                (history_labels self)) as [hl1 [x|]]; cbn [fst snd];
      [reflexivity|].
    destruct (layout (settings self) (root self)) as [root' ww].
    rewrite config_each_show_history by reflexivity.
    destruct (config_each (Tk.config_style_wrap _ (ww - 50))
                (color_cache self) 0 hl1) as [hl2 e2].
    reflexivity.
  - destruct (config_each (Tk.config_style _) (color_cache self) 0
                (history_labels self)) as [hl1 [x|]]; cbn [fst snd];
      [reflexivity|].
    destruct (layout (settings self) (root self)) as [root' ww].
    destruct (config_each (Tk.config_style_wrap _ (ww - 50))
                (color_cache self) 0 hl1) as [hl2 e2].
    reflexivity.
Qed.

Lemma on_settings_changed_commutes
    (s : Settings) (text : string) (final : bool) (w : CaptionWindow.t) :
  on_settings_changed s (_process_text_update text final w)
  = (fst (on_settings_changed s w),
     _process_text_update text final (snd (on_settings_changed s w))).
Proof.
  destruct (update_color_cache_shape s) as (o & cache & Hupd).
  unfold on_settings_changed, bind, modify.
  rewrite (Hupd (set_settings s (_process_text_update text final w)))
    by reflexivity.
  rewrite (Hupd (set_settings s w)) by reflexivity.
  assert (Hmove :
    set_color_cache cache (set_settings s (_process_text_update text final w))
    = _process_text_update text final
        (set_color_cache cache (set_settings s w)))
    by (now destruct final).
  rewrite Hmove.
  destruct o as [[]|e].
  - apply apply_visual_settings_commutes.
  - reflexivity.
Qed.

Lemma on_settings_changed_again (s : Settings) (w : CaptionWindow.t) :
  on_settings_changed s (snd (on_settings_changed s w))
  = on_settings_changed s w.
Proof.
  destruct (update_color_cache_shape s) as (o & cache & Hupd).
  unfold on_settings_changed, bind, modify.
  rewrite (Hupd (set_settings s w)) by reflexivity.
  destruct o as [[]|e].
  - set (w0 := set_color_cache cache (set_settings s w)).
    destruct (apply_visual_settings_frame w0) as (Hs & Hc & _).
    pose proof (apply_visual_settings_idempotent w0) as Happly.
    destruct (_apply_visual_settings w0) as [r1 w1].
    cbn [snd] in *.
    rewrite (Hupd (set_settings s w1)) by reflexivity.
    replace (set_color_cache cache (set_settings s w1)) with w1.
    + exact Happly.
    + destruct w1. cbn [settings color_cache] in Hs, Hc.
      unfold w0 in Hs, Hc. cbn in Hs, Hc. subst. reflexivity.
  - cbn [snd]. rewrite (Hupd _) by reflexivity. reflexivity.
Qed.

End Commute.

(** X13: a text update and a settings change commute: the settings change
    has the same outcome before and after the text update, and the two
    orders leave the same window. *)
Theorem text_update_and_settings_change_commute
    (s : Settings) (text : string) (final : bool) (w : CaptionWindow.t) :
  let '(r, w') := on_settings_changed s w in
  on_settings_changed s (_process_text_update text final w)
  = (r, _process_text_update text final w').
Proof.
  pose proof (on_settings_changed_commutes s text final w) as H.
  now destruct (on_settings_changed s w) as [r w'].
Qed.

Section Reapply.

Lemma on_settings_changed_after_events
    (s : Settings) (evs : list TranscriptionEvent) :
  forall w : CaptionWindow.t,
    on_settings_changed s (process_events evs w)
    = (fst (on_settings_changed s w),
       process_events evs (snd (on_settings_changed s w))).
Proof.
  induction evs as [|[text final] evs IH]; intros w.
  - change (process_events [] w) with w.
    change (process_events [] (snd (on_settings_changed s w)))
      with (snd (on_settings_changed s w)).
    now destruct (on_settings_changed s w).
  - change (process_events ({| ev_text := text; is_final := final |} :: evs) w)
      with (process_events evs (_process_text_update text final w)).
    rewrite IH, on_settings_changed_commutes. reflexivity.
Qed.

End Reapply.

(** X14: once settings have been applied, applying the same settings again
    after any number of text updates changes nothing, and has the outcome
    of the first application; this is with the root window reporting the
    same sizes at both applications. *)
Theorem reapplying_after_captions_changes_nothing
    (s : Settings) (evs : list TranscriptionEvent) (w : CaptionWindow.t) :
  let '(r, w1) := on_settings_changed s w in
  let w2 := process_events evs w1 in
  on_settings_changed s w2 = (r, w2).
Proof.
  pose proof (on_settings_changed_again s w) as Hagain.
  destruct (on_settings_changed s w) as [r w1]. cbn [snd] in Hagain.
  cbv zeta. rewrite on_settings_changed_after_events, Hagain. reflexivity.
Qed.

(** X15: a settings change that fails on its colour leaves the look of the
    window alone (root window and label styles as before, the colour table
    emptied), and leaves no trace once a later change is made: the later
    change gives what it would have given without the failed one. *)
Theorem failed_change_leaves_no_trace
    (bad good : Settings) (w : CaptionWindow.t) :
  color_usable (text_color bad) = false ->
  let '(r, w') := on_settings_changed bad w in
  r = Raises ValueError
  /\ root w' = root w
  /\ history_labels w' = history_labels w
  /\ partial_label w' = partial_label w
  /\ color_cache w' = []
  /\ on_settings_changed good w' = on_settings_changed good w.
Proof.
  intros Hbad.
  destruct (on_settings_changed_cases bad w) as (cache & Hlen & ->).
  rewrite Hbad in *. apply length_zero_iff_nil in Hlen. subst cache.
  repeat split.
Qed.

Lemma failed_change_leaves_no_trace_witness :
  let bad := mkSettings "Helvetica" 24 "#FFF" "top" true in
  let good := mkSettings "Arial" 30 "#1E90FF" "bottom" false in
  let w := initial_window screen_1920x1080 in
  on_settings_changed good (snd (on_settings_changed bad w))
  = on_settings_changed good w.
Proof.
  intros bad good w.
  pose proof (failed_change_leaves_no_trace bad good w eq_refl) as H.
  destruct (on_settings_changed bad w) as [r w'].
  destruct H as (_ & _ & _ & _ & _ & H). exact H.
Defined.

(** X16: closing any reachable window returns normally: the transcriber
    that [__init__] started is stopped, its thread is joined once with a
    timeout of 2.0 seconds, and then the root window is destroyed. *)
Theorem close_reachable_window (root : Tk.Root) (acts : list action) :
  let w := run_actions acts (initial_window root) in
  exists th : AudioTranscriber.Thread,
    transcriber w = Some (AudioTranscriber.mk MODEL_PATH true (Some th))
    /\ on_close w
       = Some (Returns tt,
               set_transcriber (AudioTranscriber.mk MODEL_PATH false (Some th)) w,
               [Worker (AudioTranscriber.ThreadJoin th (PyFloat.literal 20 10));
                RootDestroy]).
Proof.
  intros w.
  assert (Ht : transcriber w = transcriber (initial_window root))
    by apply run_actions_transcriber.
  exists (AudioTranscriber.mkThread true true). split.
  - rewrite Ht. reflexivity.
  - unfold on_close. rewrite Ht. reflexivity.
Qed.

(** ** The look a settings change gives *)

Section Look.

Lemma nth_error_skipn_cons (cache : list string) :
  forall (i : nat) (c : string),
    nth_error cache i = Some c -> skipn i cache = c :: skipn (S i) cache.
Proof.
  induction cache as [|x cache IH]; intros [|i] c H; cbn in H;
    try discriminate.
  - now inversion H.
  - cbn [skipn]. now apply IH.
Qed.

Lemma config_each_fg (upd : string -> Tk.Label -> Tk.Label)
    (cache : list string) :
  (forall c l, Tk.fg (upd c l) = Some c) ->
  forall (labels : list Tk.Label) (i : nat),
    (i + List.length labels <= List.length cache)%nat ->
    map Tk.fg (fst (config_each upd cache i labels))
    = map Some (firstn (List.length labels) (skipn i cache)).
Proof.
  intros Hupd. induction labels as [|lbl rest IH]; intros i Hfit;
    cbn [config_each List.length] in *.
  - reflexivity.
  - destruct (nth_error cache i) as [c|] eqn:Hc.
    + rewrite (nth_error_skipn_cons cache i c Hc).
      specialize (IH (S i) ltac:(lia)).
      destruct (config_each upd cache (S i) rest) as [rest' e].
      cbn [fst map firstn] in *. now rewrite Hupd, IH.
    + apply nth_error_None in Hc. lia.
Qed.


Lemma apply_visual_settings_fits (self : CaptionWindow.t) :
  (List.length (history_labels self) <= List.length (color_cache self))%nat ->
  let font_spec := (font_family (settings self), font_size (settings self)) in
  let wrap_len := snd (layout (settings self) (root self)) - 50 in
  _apply_visual_settings self
  = (Returns tt,
     mk (fst (layout (settings self) (root self)))
        (settings self) (history self) (color_cache self)
        (fst (config_each (Tk.config_style_wrap font_spec wrap_len)
                (color_cache self) 0 (history_labels self)))
        (Tk.config_style_wrap font_spec wrap_len (text_color (settings self))
           (partial_label self))
        (transcriber self)).
Proof.
  intros Hfit font_spec wrap_len.
  rewrite apply_visual_settings_steps. cbv zeta. fold font_spec.
  destruct (config_each_fits (Tk.config_style font_spec)
              (fun _ => True) (color_cache self) (fun _ _ => I)
              (history_labels self) 0%nat Hfit) as [He1 _].
  pose proof (config_each_then (Tk.config_style font_spec)
                (Tk.config_style_wrap font_spec wrap_len)
                (Tk.config_style_wrap font_spec wrap_len)
                (color_cache self) (fun _ _ => eq_refl)
                (history_labels self) 0%nat) as H21.
  destruct (config_each_fits (Tk.config_style_wrap font_spec wrap_len)
              (fun _ => True) (color_cache self) (fun _ _ => I)
              (history_labels self) 0%nat Hfit) as [He2 _].
  destruct (config_each (Tk.config_style font_spec) (color_cache self) 0
              (history_labels self)) as [hl1 e1].
  cbn [fst snd] in He1, H21. subst e1.
  unfold wrap_len in *.
  destruct (layout (settings self) (root self)) as [root' ww].
  cbn [fst snd] in *. rewrite H21.
  destruct (config_each (Tk.config_style_wrap font_spec (ww - 50))
              (color_cache self) 0 (history_labels self)) as [hl2 e2].
  cbn [fst snd] in *. subst e2. reflexivity.
Qed.

Lemma bytes_print_and_parse :
  forallb byte_prints_and_parses (PyStr.range 256) = true.
Proof. vm_compute. reflexivity. Qed.

Lemma scaled_bytes_stay_bytes :
  forallb (fun c => forallb (scaled_stays_byte c) (PyStr.range MAX_HISTORY))
          (PyStr.range 256) = true.
Proof. vm_compute. reflexivity. Qed.

Lemma format_02x_byte (v : Z) :
  0 <= v <= 255 ->
  exists a b : ascii,
    PyStr.format_02x v = String a (String b EmptyString)
    /\ PyStr.is_hex_digit a = true /\ PyStr.is_hex_digit b = true
    /\ PyStr.int16 (PyStr.format_02x v) = Some v.
Proof.
  intros Hv. pose proof bytes_print_and_parse as H.
  rewrite forallb_forall in H.
  specialize (H v (in_range 256 v ltac:(lia))).
  unfold byte_prints_and_parses in H.
  destruct (PyStr.format_02x v) as [|a [|b [|]]]; try discriminate.
  exists a, b.
  apply andb_prop in H. destruct H as [H Hp].
  apply andb_prop in H. destruct H as [Ha Hb].
  destruct (PyStr.int16 (String a (String b EmptyString))) as [v'|];
    [|discriminate].
  apply Z.eqb_eq in Hp. subst v'. repeat split; assumption.
Qed.

Lemma scaled_byte (c i : Z) :
  0 <= c <= 255 -> In i (PyStr.range MAX_HISTORY) ->
  0 <= FadeSpec.scaled c i <= c /\ FadeSpec.scaled c 0 = c.
Proof.
  intros Hc Hi. pose proof scaled_bytes_stay_bytes as H.
  rewrite forallb_forall in H.
  specialize (H c (in_range 256 c ltac:(lia))).
  rewrite forallb_forall in H. specialize (H i Hi).
  unfold scaled_stays_byte in H.
  apply andb_prop in H. destruct H as [H H0].
  apply andb_prop in H. destruct H as [Hlo Hhi].
  lia.
Qed.

End Look.





Section TableEdge.


Lemma is_rgb_hex_shape (s : string) :
  is_rgb_hex s = true ->
  exists a b c d e f : ascii,
    s = String "#" (String a (String b (String c (String d (String e
          (String f EmptyString))))))
    /\ PyStr.is_hex_digit a = true /\ PyStr.is_hex_digit b = true
    /\ PyStr.is_hex_digit c = true /\ PyStr.is_hex_digit d = true
    /\ PyStr.is_hex_digit e = true /\ PyStr.is_hex_digit f = true.
Proof.
  intros Hhex.
  destruct s as [|h [|a [|b [|c [|d [|e [|f [|]]]]]]]]; try discriminate.
  cbn [is_rgb_hex] in Hhex.
  repeat (apply andb_prop in Hhex; destruct Hhex as [Hhex ?]).
  apply Ascii.eqb_eq in Hhex. subst h.
  exists a, b, c, d, e, f. repeat split; assumption.
Qed.

Lemma fade_color_is_rgb_hex (r g b i : Z) :
  0 <= r <= 255 -> 0 <= g <= 255 -> 0 <= b <= 255 ->
  In i (PyStr.range MAX_HISTORY) ->
  is_rgb_hex (FadeSpec.color r g b i) = true
  /\ PyStr.int16 (PyStr.slice (FadeSpec.color r g b i) 1 3)
     = Some (FadeSpec.scaled r i)
  /\ PyStr.int16 (PyStr.slice (FadeSpec.color r g b i) 3 5)
     = Some (FadeSpec.scaled g i)
  /\ PyStr.int16 (PyStr.slice (FadeSpec.color r g b i) 5 7)
     = Some (FadeSpec.scaled b i).
Proof.
  intros Hr Hg Hb Hi.
  destruct (scaled_byte r i Hr Hi) as [Hsr _].
  destruct (scaled_byte g i Hg Hi) as [Hsg _].
  destruct (scaled_byte b i Hb Hi) as [Hsb _].
  destruct (format_02x_byte (FadeSpec.scaled r i) ltac:(lia))
    as (r1 & r2 & Er & Hr1 & Hr2 & Pr).
  destruct (format_02x_byte (FadeSpec.scaled g i) ltac:(lia))
    as (g1 & g2 & Eg & Hg1 & Hg2 & Pg).
  destruct (format_02x_byte (FadeSpec.scaled b i) ltac:(lia))
    as (b1 & b2 & Eb & Hb1 & Hb2 & Pb).
  unfold FadeSpec.color. rewrite Er, Eg, Eb in *.
  cbn [String.append is_rgb_hex PyStr.slice substring Nat.sub].
  rewrite Hr1, Hr2, Hg1, Hg2, Hb1, Hb2, Pr, Pg, Pb.
  repeat split.
Qed.

End TableEdge.



(** X21: for a base colour that is an RGB hex triple, every colour of the
    table is an RGB hex triple again, so any of them can be given back as
    the base colour; its three slices parse to the scaled components, none
    of which exceeds the component it comes from, and slot 0 parses to the
    components of the base colour itself. *)
Theorem fade_table_entries_are_rgb_hex (self : CaptionWindow.t) :
  is_rgb_hex (text_color (settings self)) = true ->
  let col := text_color (settings self) in
  let cache := color_cache (snd (_update_color_cache self)) in
  Forall
    (fun c =>
       is_rgb_hex c = true
       /\ exists r g b r' g' b' : Z,
            PyStr.int16 (PyStr.slice col 1 3) = Some r
            /\ PyStr.int16 (PyStr.slice col 3 5) = Some g
            /\ PyStr.int16 (PyStr.slice col 5 7) = Some b
            /\ PyStr.int16 (PyStr.slice c 1 3) = Some r'
            /\ PyStr.int16 (PyStr.slice c 3 5) = Some g'
            /\ PyStr.int16 (PyStr.slice c 5 7) = Some b'
            /\ 0 <= r' <= r /\ 0 <= g' <= g /\ 0 <= b' <= b)
    cache
  /\ exists c0 : string,
       nth_error cache 0 = Some c0
       /\ PyStr.int16 (PyStr.slice c0 1 3) = PyStr.int16 (PyStr.slice col 1 3)
       /\ PyStr.int16 (PyStr.slice c0 3 5) = PyStr.int16 (PyStr.slice col 3 5)
       /\ PyStr.int16 (PyStr.slice c0 5 7) = PyStr.int16 (PyStr.slice col 5 7).
Proof.
  intros Hhex col cache.
  destruct (is_rgb_hex_shape _ Hhex)
    as (a & b & c & d & e & f & Hcol & Ha & Hb & Hc & Hd & He & Hf).
  destruct (update_color_cache_six_digits self a b c d e f EmptyString
              Hcol Ha Hb Hc Hd He Hf)
    as (r & g & bl & (Hr255 & Hg255 & Hb255) & Hr & Hg & Hbl & Hupd).
  unfold cache. rewrite Hupd. cbn [snd color_cache set_color_cache].
  fold col in Hr, Hg, Hbl. split.
  - apply Forall_forall. intros x Hx.
    unfold FadeSpec.table in Hx. apply in_map_iff in Hx.
    destruct Hx as (i & <- & Hi).
    destruct (fade_color_is_rgb_hex r g bl i Hr255 Hg255 Hb255 Hi)
      as (H0 & H1 & H2 & H3).
    split; [exact H0|].
    exists r, g, bl, (FadeSpec.scaled r i), (FadeSpec.scaled g i),
      (FadeSpec.scaled bl i).
    destruct (scaled_byte r i Hr255 Hi) as [? _].
    destruct (scaled_byte g i Hg255 Hi) as [? _].
    destruct (scaled_byte bl i Hb255 Hi) as [? _].
    repeat split; try assumption; lia.
  - exists (FadeSpec.color r g bl 0). split; [reflexivity|].
    assert (H0 : In 0 (PyStr.range MAX_HISTORY)) by (now left).
    destruct (fade_color_is_rgb_hex r g bl 0 Hr255 Hg255 Hb255 H0)
      as (_ & H1 & H2 & H3).
    destruct (scaled_byte r 0 Hr255 H0) as [_ Er].
    destruct (scaled_byte g 0 Hg255 H0) as [_ Eg].
    destruct (scaled_byte bl 0 Hb255 H0) as [_ Eb].
    rewrite H1, H2, H3, Hr, Hg, Hbl, Er, Eg, Eb. repeat split.
Qed.

Lemma fade_table_entries_are_rgb_hex_witness :
  let self :=
    set_settings (mkSettings "Helvetica" 24 "#1E90FF" "floating" false)
      (initial_window screen_1920x1080) in
  Forall (fun c => is_rgb_hex c = true)
         (color_cache (snd (_update_color_cache self))).
Proof.
  intros self.
  destruct (fade_table_entries_are_rgb_hex self eq_refl) as [H _].
  cbv zeta in H.
  eapply Forall_impl; [|exact H].
  intros c [Hc _]. exact Hc.
Defined.

(** ** Settings changes with a colour the toolkit accepts *)

Section HexTripleChange.

Lemma on_settings_changed_rgb_hex (s : Settings) (w : CaptionWindow.t) :
  is_rgb_hex (text_color s) = true ->
  exists r g b : Z,
    (0 <= r <= 255 /\ 0 <= g <= 255 /\ 0 <= b <= 255)
    /\ on_settings_changed s w
       = _apply_visual_settings
           (set_color_cache (FadeSpec.table r g b) (set_settings s w)).
Proof.
  intros Hhex.
  destruct (is_rgb_hex_shape _ Hhex)
    as (a & b & c & d & e & f & Hcol & Ha & Hb & Hc & Hd & He & Hf).
  destruct (update_color_cache_six_digits (set_settings s w)
              a b c d e f EmptyString Hcol Ha Hb Hc Hd He Hf)
    as (r & g & bl & Hbytes & _ & _ & _ & Hupd).
  exists r, g, bl. split; [exact Hbytes|].
  unfold on_settings_changed, bind, modify. now rewrite Hupd.
Qed.

Lemma fade_table_is_rgb_hex (r g b : Z) :
  0 <= r <= 255 -> 0 <= g <= 255 -> 0 <= b <= 255 ->
  Forall (fun c => is_rgb_hex c = true) (FadeSpec.table r g b).
Proof.
  intros Hr Hg Hb. apply Forall_forall. intros x Hx.
  unfold FadeSpec.table in Hx. apply in_map_iff in Hx.
  destruct Hx as (i & <- & Hi).
  now destruct (fade_color_is_rgb_hex r g b i Hr Hg Hb Hi).
Qed.

End HexTripleChange.

(** X12: on every reachable window a settings change never raises
    [IndexError]: the table it has just computed covers the pool.  It
    returns normally when the colour is an RGB hex triple, and it raises
    [ValueError], before the toolkit is called, when the colour starts with
    [#] and one of its slices does not parse. *)
Theorem settings_change_outcome
    (root : Tk.Root) (acts : list action) (s : Settings) :
  let w := run_actions acts (initial_window root) in
  fst (on_settings_changed s w) <> Raises IndexError
  /\ (is_rgb_hex (text_color s) = true ->
      fst (on_settings_changed s w) = Returns tt)
  /\ (color_usable (text_color s) = false ->
      fst (on_settings_changed s w) = Raises ValueError).
Proof.
  intros w.
  destruct (run_actions_ok acts _ (initial_window_ok root))
    as (_ & Hl & _ & _). fold w in Hl.
  assert (Hout :
    fst (on_settings_changed s w)
    = if color_usable (text_color s) then Returns tt else Raises ValueError).
  { destruct (on_settings_changed_cases s w) as (cache & Hlen & ->).
    destruct (color_usable (text_color s)); [|reflexivity].
    apply apply_visual_settings_returns.
    cbn [history_labels color_cache set_color_cache set_settings].
    rewrite Hl, Hlen. lia. }
  split; [|split].
  - rewrite Hout. destruct (color_usable (text_color s)); discriminate.
  - intros Hhex.
    destruct (on_settings_changed_rgb_hex s w Hhex) as (r & g & b & _ & ->).
    apply apply_visual_settings_returns.
    cbn [history_labels color_cache set_color_cache set_settings].
    rewrite Hl, fade_table_length. reflexivity.
  - intros Hbad. now rewrite Hout, Hbad.
Qed.

Lemma settings_change_outcome_witness :
  let w := run_actions [] (initial_window screen_1920x1080) in
  fst (on_settings_changed (mkSettings "Arial" 30 "#1E90FF" "top" false) w)
  = Returns tt
  /\ fst (on_settings_changed (mkSettings "Arial" 30 "#FFF" "top" false) w)
     = Raises ValueError.
Proof.
  intros w. split.
  - destruct (settings_change_outcome screen_1920x1080 []
                (mkSettings "Arial" 30 "#1E90FF" "top" false))
      as (_ & H & _).
    apply H. vm_compute. reflexivity.
  - destruct (settings_change_outcome screen_1920x1080 []
                (mkSettings "Arial" 30 "#FFF" "top" false))
      as (_ & _ & H).
    apply H. vm_compute. reflexivity.
Defined.

(** X17: after a settings change whose colour is an RGB hex triple, on a
    reachable window, history label [i] is painted with colour [i] of the
    table, the partial label with the base colour itself, unfaded, and all
    eleven labels carry the chosen font and the same wrap length; every
    colour handed to the toolkit is an RGB hex triple. *)
Theorem look_after_settings_change
    (root : Tk.Root) (acts : list action) (s : Settings) :
  is_rgb_hex (text_color s) = true ->
  let w := run_actions acts (initial_window root) in
  let w' := snd (on_settings_changed s w) in
  let wrap_len := snd (layout s (CaptionWindow.root w)) - 50 in
  map Tk.fg (history_labels w') = map Some (color_cache w')
  /\ Forall (fun c => is_rgb_hex c = true) (color_cache w')
  /\ Tk.fg (partial_label w') = Some (text_color s)
  /\ Forall (fun l => Tk.font l = Some (font_family s, font_size s)
                      /\ Tk.wraplength l = Some wrap_len)
            (partial_label w' :: history_labels w')
  /\ CaptionWindow.root w' = fst (layout s (CaptionWindow.root w)).
Proof.
  intros Hhex w w' wrap_len.
  destruct (run_actions_ok acts _ (initial_window_ok root))
    as (_ & Hl & _ & _). fold w in Hl.
  destruct (on_settings_changed_rgb_hex s w Hhex)
    as (r & g & b & (Hr & Hg & Hb) & Hcase).
  assert (Hfit : (List.length (history_labels
                                 (set_color_cache (FadeSpec.table r g b)
                                    (set_settings s w)))
                  <= List.length (color_cache
                                    (set_color_cache (FadeSpec.table r g b)
                                       (set_settings s w))))%nat).
  { cbn [history_labels color_cache set_color_cache set_settings].
    rewrite Hl, fade_table_length. reflexivity. }
  pose proof (apply_visual_settings_fits _ Hfit) as Happly.
  cbv zeta in Happly.
  cbn [history_labels color_cache settings partial_label transcriber history
       CaptionWindow.root set_color_cache set_settings] in Happly.
  unfold w'. rewrite Hcase, Happly.
  cbn [snd history_labels color_cache partial_label CaptionWindow.root].
  fold wrap_len.
  split; [|split; [|split; [reflexivity|split; [|reflexivity]]]].
  - rewrite config_each_fg
      by (auto; cbn [Nat.add]; rewrite Hl, fade_table_length; reflexivity).
    cbn [skipn]. rewrite Hl.
    change 10%nat with (List.length (FadeSpec.table r g b)) at 1.
    now rewrite firstn_all.
  - now apply fade_table_is_rgb_hex.
  - constructor; [split; reflexivity|].
    apply (config_each_fits _
             (fun l => Tk.font l = Some (font_family s, font_size s)
                       /\ Tk.wraplength l = Some wrap_len)).
    + intros c l. split; reflexivity.
    + cbn [Nat.add]. rewrite Hl, fade_table_length. reflexivity.
Qed.

Lemma look_after_settings_change_witness :
  let s := mkSettings "Arial" 30 "#1E90FF" "top" false in
  let w := run_actions [] (initial_window screen_1920x1080) in
  let w' := snd (on_settings_changed s w) in
  map Tk.fg (history_labels w') = map Some (color_cache w')
  /\ Tk.fg (partial_label w') = Some (text_color s).
Proof.
  intros s w w'.
  assert (Hhex : is_rgb_hex (text_color s) = true)
    by (vm_compute; reflexivity).
  pose proof (look_after_settings_change screen_1920x1080 [] s Hhex) as H.
  cbv zeta in H. fold s w w' in H.
  destruct H as (H1 & _ & H2 & _).
  split; [exact H1|exact H2].
Defined.
